(** * NoctisPro C++ viewer: window/level engine and viewport controller

    A shallow embedding of [cpp_viewer/main.cpp]: the [DicomImageWidget]
    class (window/level remapping, zoom, pan) and the parts of
    [DicomViewerWindow] that load images and fetch the worklist.

    Conventions.
    - A C++ [int] is a [Z]; arithmetic that can leave the 32-bit range is
      written with its two's complement wrap-around ([wrap_int]).
    - A C++ [double] is an IEEE 754 binary64 number, taken from the
      Standard Library's [SpecFloat] (precision 53, emax 1024), so that
      every rounding of the source's floating-point expression is the
      model's rounding too. Each operation is rounded on its own, to
      nearest even (no fused multiply-add, no extended precision).
    - [QImage] and [QPixmap] are Qt value types (implicitly shared, copied
      on the first write through a non-const [scanLine]); they are values
      here, and a pixmap is represented by its [Format_Grayscale8]
      rendering, which is what [applyWindowLevel] reads.
    - What the widget inherits from [QGraphicsView] (transformation matrix,
      scroll bars, viewport, cursor) is toolkit state: it is an abstract
      type with the toolkit calls the source makes as operations
      (class [QGraphicsView]). *)

From Stdlib Require Import ZArith Lia Floats.SpecFloat.
From stdpp Require Import base tactics option list strings pretty gmap.

Open Scope Z_scope.

(** ** C++ [int] *)

Definition INT_MIN : Z := - 2 ^ 31.
Definition INT_MAX : Z := 2 ^ 31 - 1.

Definition is_int (z : Z) : bool := (INT_MIN <=? z) && (z <=? INT_MAX).

(** Two's complement wrap-around of a 32-bit signed integer. *)
Definition wrap_int (z : Z) : Z := (z + 2 ^ 31) mod 2 ^ 32 - 2 ^ 31.

(** [a - b] on [int]. *)
Definition int_sub (a b : Z) : Z := wrap_int (a - b).

(** [static_cast<uchar>(n)]. *)
Definition to_uchar (n : Z) : Z := n mod 256.

(** ** C++ [double] *)

Module Binary64.

Definition prec : Z := 53.
Definition emax : Z := 1024.

Definition double := spec_float.

(** Conversion [int -> double] (exact below 2^53). *)
Definition of_int (z : Z) : double := binary_normalize prec emax z 0 false.

Definition mul : double -> double -> double := SFmul prec emax.
Definition div : double -> double -> double := SFdiv prec emax.
Definition add : double -> double -> double := SFadd prec emax.

(** The integral part of a finite number, fraction dropped (toward zero). *)
Definition truncate (x : double) : option Z :=
  match x with
  | S754_zero _ => Some 0
  | S754_finite s m e =>
      Some (cond_Zopp s
              (match e with
               | Zneg p => Z.shiftr (Zpos m) (Zpos p)
               | _ => Z.shiftl (Zpos m) e
               end))
  | S754_infinity _ | S754_nan => None
  end.

(** The nearest integer of a finite number, halves away from zero
    (C's [round]). *)
Definition nearest (x : double) : option Z :=
  match x with
  | S754_zero _ => Some 0
  | S754_finite s m e =>
      Some (cond_Zopp s
              (match e with
               | Zneg p => Z.shiftr (Zpos m~0 + Z.shiftl 1 (Zpos p)) (Zpos p + 1)
               | _ => Z.shiftl (Zpos m) e
               end))
  | S754_infinity _ | S754_nan => None
  end.

(** Conversion [double -> int], written [int(x)] in the source: the
    fraction is dropped. C++ leaves the conversion undefined when the
    truncated value is not an [int] (or [x] is infinite or NaN); there the
    model takes what the x86-64 conversion instruction delivers,
    [INT_MIN]. [int_defined] tells the two cases apart. *)
Definition int_defined (x : double) : bool :=
  match truncate x with
  | Some t => is_int t
  | None => false
  end.

Definition to_int (x : double) : Z :=
  match truncate x with
  | Some t => if is_int t then t else INT_MIN
  | None => INT_MIN
  end.

(** [x] is zero, or finite with [|x| < 2 ^ k]. *)
Definition below (x : double) (k : Z) : Prop :=
  match x with
  | S754_zero _ => True
  | S754_finite _ m e => Zpos m < 2 ^ (k - e)
  | S754_infinity _ | S754_nan => False
  end.

End Binary64.

Import Binary64.

(** ** Qt's [qMax], [qMin], [qBound] *)

(** Modelled from the spec: [qMax], [qMin] and [qBound] are templates of
    QtGlobal, not of this repository; the spec reads them as [max] and
    [clamp]. They are written here as Qt defines them. *)
Definition qMax (a b : Z) : Z := if a <? b then b else a.
Definition qMin (a b : Z) : Z := if a <? b then a else b.
Definition qBound (lo v hi : Z) : Z := qMax lo (qMin hi v).

(** ** Images *)

(** An 8-bit grayscale image: [img_bits] holds [img_height] scan lines of
    [img_width] samples each. *)
Record QImage := mkImage {
  img_width : Z;
  img_height : Z;
  img_bits : list (list Z)
}.

Abbreviation QPixmap := QImage.

Definition isNull (p : QPixmap) : bool :=
  (img_width p <=? 0) || (img_height p <=? 0).

Definition null_pixmap : QPixmap := mkImage 0 0 [].

Record QRect := mkRect { rx : Z; ry : Z; rw : Z; rh : Z }.

(** [pixmap.rect()] *)
Definition rect (p : QPixmap) : QRect := mkRect 0 0 (img_width p) (img_height p).

(** Every scan line is present and has the image's width, and every sample
    is a byte. *)
Definition well_formed (img : QImage) : Prop :=
  length (img_bits img) = Z.to_nat (img_height img) ∧
  Forall (λ line, length line = Z.to_nat (img_width img) ∧
                  Forall (λ g, 0 <= g < 256) line) (img_bits img).

(** The sample at column [x] of scan line [y]. *)
Definition pixel (img : QImage) (x y : nat) : option Z :=
  img_bits img !! y ≫= (.!! x).

(** ** The window/level transform ([applyWindowLevel], lines 74-82) *)

(** One turn of a loop [for (i = 0; i < n; ++i) a[i] = f(a[i])] that
    updates an array in place; an index outside the array is not touched
    (the source's loops never reach one). *)
Definition turn {A : Type} (f : A → A) (a : list A) (i : nat) : list A :=
  match a !! i with
  | Some v => <[i := f v]> a
  | None => a
  end.

(** The value converted to [int] on line 79: [slope * (gray - windowCenter) + 127]
    with [slope = 255.0 / qMax(1, windowWidth)]. *)
Definition window_slope (windowWidth : Z) : double :=
  div (of_int 255) (of_int (qMax 1 windowWidth)).

Definition window_value (windowCenter windowWidth gray : Z) : double :=
  add (mul (window_slope windowWidth) (of_int (int_sub gray windowCenter)))
      (of_int 127).

(** The body of the inner loop for one sample: lines 77-80. *)
Definition window_gray (windowCenter windowWidth gray : Z) : Z :=
  let slope := window_slope windowWidth in
  let newGray :=
    qBound 0 (to_int (add (mul slope (of_int (int_sub gray windowCenter)))
                          (of_int 127))) 255 in
  to_uchar newGray.

(** One turn of the inner loop: [line[x] = ...] in place. *)
Definition window_x (windowCenter windowWidth : Z) (line : list Z) (x : nat) : list Z :=
  match line !! x with
  | Some gray => <[x := window_gray windowCenter windowWidth gray]> line
  | None => line
  end.

(** The inner loop: [for (int x=0; x<img.width(); ++x)]. *)
Definition window_line (windowCenter windowWidth width : Z) (line : list Z) : list Z :=
  foldl (window_x windowCenter windowWidth) line (seq 0 (Z.to_nat width)).

(** One turn of the outer loop: [line = img.scanLine(y)], then the inner loop. *)
Definition window_y (windowCenter windowWidth width : Z)
    (bits : list (list Z)) (y : nat) : list (list Z) :=
  match bits !! y with
  | Some line => <[y := window_line windowCenter windowWidth width line]> bits
  | None => bits
  end.

(** Both loops, on the local copy [img]. *)
Definition window_image (windowCenter windowWidth : Z) (img : QImage) : QImage :=
  mkImage (img_width img) (img_height img)
    (foldl (window_y windowCenter windowWidth (img_width img)) (img_bits img)
           (seq 0 (Z.to_nat (img_height img)))).

(** ** The transform in the spec's words *)

Definition clamp (v lo hi : Z) : Z := Z.max lo (Z.min hi v).

(** [output = clamp(round(slope * (input - center) + 127), 0, 255)] with
    [slope = 255.0 / max(1, width)]: rounded to the nearest integer. *)
Definition spec_output_round (center width input : Z) : option Z :=
  let slope := div (of_int 255) (of_int (Z.max 1 width)) in
  r ← nearest (add (mul slope (of_int (input - center))) (of_int 127));
  Some (clamp r 0 255).

(** The same with the fraction dropped instead. *)
Definition spec_output_trunc (center width input : Z) : option Z :=
  let slope := div (of_int 255) (of_int (Z.max 1 width)) in
  t ← truncate (add (mul slope (of_int (input - center))) (of_int 127));
  Some (clamp t 0 255).


(** ** The inherited [QGraphicsView] *)

Record QPoint := mkPoint { px : Z; py : Z }.

Inductive MouseButton := LeftButton | MiddleButton | RightButton.

Record QMouseEvent := mkMouse { button : MouseButton; pos : QPoint }.

Inductive CursorShape := ArrowCursor | ClosedHandCursor.

(** The toolkit calls the widget makes on its base class and its scene.
    [V] is everything the base class keeps: the transformation matrix, the
    scroll bars, the scene rectangle it shows, the viewport and the cursor.
    The calls are Qt's; the model fixes nothing about them. *)
Class QGraphicsView (V : Type) := {
  (** the base class after the constructor body of line 37-42 *)
  view_new : V;
  (** [scale(sx, sy)] *)
  scale : double → double → V → V;
  (** [resetTransform()] *)
  resetTransform : V → V;
  (** [fitInView(rect, Qt::KeepAspectRatio)] *)
  fitInView : QRect → V → V;
  (** [scene->setSceneRect(rect)], as the view sees it *)
  setSceneRect : QRect → V → V;
  (** [horizontalScrollBar()->value()] and [->setValue(v)] *)
  hbarValue : V → Z;
  hbarSetValue : Z → V → V;
  (** [verticalScrollBar()->value()] and [->setValue(v)] *)
  vbarValue : V → Z;
  vbarSetValue : Z → V → V;
  (** [setCursor(shape)] *)
  setCursor : CursorShape → V → V;
  (** [QGraphicsView::mousePressEvent(e)] and its siblings *)
  baseMousePressEvent : QMouseEvent → V → V;
  baseMouseMoveEvent : QMouseEvent → V → V;
  baseMouseReleaseEvent : QMouseEvent → V → V
}.

(** ** [DicomImageWidget] *)

Section Widget.
Context {V : Type} `{!QGraphicsView V}.

(** The members of lines 85-92, with the base class as [view]. The scene
    holds at most the one pixmap item: [pixmapItem] is [None] for
    [nullptr] and [Some p] for an item showing [p]. *)
Record DicomImageWidget := mkWidget {
  view : V;
  pixmapItem : option QPixmap;
  currentPixmap : QPixmap;
  scaleFactor : double;
  windowCenter : Z;
  windowWidth : Z;
  isDragging : bool;
  lastPanPoint : QPoint
}.

(** The constructor, lines 36-42. *)
Definition newWidget : DicomImageWidget :=
  mkWidget view_new None null_pixmap (of_int 1) 128 256 false (mkPoint 0 0).

(** [scene->itemsBoundingRect()] *)
Definition itemsBoundingRect (w : DicomImageWidget) : QRect :=
  match pixmapItem w with
  | Some p => rect p
  | None => mkRect 0 0 0 0
  end.

(** Lines 43-49. *)
Definition setDicomImage (pixmap : QPixmap) (w : DicomImageWidget) : DicomImageWidget :=
  (* scene->clear(); currentPixmap = pixmap; pixmapItem = scene->addPixmap(pixmap); *)
  let w1 := mkWidget (view w) (Some pixmap) pixmap (scaleFactor w)
              (windowCenter w) (windowWidth w) (isDragging w) (lastPanPoint w) in
  (* scene->setSceneRect(pixmap.rect()); *)
  let v2 := setSceneRect (rect pixmap) (view w1) in
  (* fitInView(scene->itemsBoundingRect(), Qt::KeepAspectRatio); *)
  let v3 := fitInView (itemsBoundingRect w1) v2 in
  mkWidget v3 (pixmapItem w1) (currentPixmap w1) (scaleFactor w1)
    (windowCenter w1) (windowWidth w1) (isDragging w1) (lastPanPoint w1).

(** The literals [1.25] and [0.8] as binary64 numbers. *)
Definition d1_25 : double := div (of_int 5) (of_int 4).
Definition d0_8 : double := div (of_int 4) (of_int 5).

(** Line 50. *)
Definition zoomIn (w : DicomImageWidget) : DicomImageWidget :=
  mkWidget (scale d1_25 d1_25 (view w)) (pixmapItem w) (currentPixmap w)
    (mul (scaleFactor w) d1_25)
    (windowCenter w) (windowWidth w) (isDragging w) (lastPanPoint w).

(** Line 51. *)
Definition zoomOut (w : DicomImageWidget) : DicomImageWidget :=
  mkWidget (scale d0_8 d0_8 (view w)) (pixmapItem w) (currentPixmap w)
    (mul (scaleFactor w) d0_8)
    (windowCenter w) (windowWidth w) (isDragging w) (lastPanPoint w).

(** Line 52. *)
Definition resetZoom (w : DicomImageWidget) : DicomImageWidget :=
  mkWidget (fitInView (itemsBoundingRect w) (resetTransform (view w)))
    (pixmapItem w) (currentPixmap w) (of_int 1)
    (windowCenter w) (windowWidth w) (isDragging w) (lastPanPoint w).

(** Lines 71-84. *)
Definition applyWindowLevel (w : DicomImageWidget) : DicomImageWidget :=
  match pixmapItem w with
  | Some _ =>
      if isNull (currentPixmap w) then w
      else
        (* QImage img = currentPixmap.toImage().convertToFormat(...) *)
        let img := currentPixmap w in
        let img' := window_image (windowCenter w) (windowWidth w) img in
        (* pixmapItem->setPixmap(QPixmap::fromImage(img)) *)
        mkWidget (view w) (Some img') (currentPixmap w) (scaleFactor w)
          (windowCenter w) (windowWidth w) (isDragging w) (lastPanPoint w)
  | None => w
  end.

(** Line 53. *)
Definition adjustWindowLevel (center width : Z) (w : DicomImageWidget) : DicomImageWidget :=
  applyWindowLevel
    (mkWidget (view w) (pixmapItem w) (currentPixmap w) (scaleFactor w)
       center width (isDragging w) (lastPanPoint w)).

(** Line 55; [dy] is [e->angleDelta().y()]. *)
Definition wheelEvent (dy : Z) (w : DicomImageWidget) : DicomImageWidget :=
  if 0 <? dy then zoomIn w else zoomOut w.

Definition with_view (v : V) (w : DicomImageWidget) : DicomImageWidget :=
  mkWidget v (pixmapItem w) (currentPixmap w) (scaleFactor w)
    (windowCenter w) (windowWidth w) (isDragging w) (lastPanPoint w).

Definition is_middle (b : MouseButton) : bool :=
  match b with MiddleButton => true | _ => false end.

(** Lines 56-58. *)
Definition mousePressEvent (e : QMouseEvent) (w : DicomImageWidget) : DicomImageWidget :=
  if is_middle (button e) then
    mkWidget (setCursor ClosedHandCursor (view w)) (pixmapItem w) (currentPixmap w)
      (scaleFactor w) (windowCenter w) (windowWidth w) true (pos e)
  else with_view (baseMousePressEvent e (view w)) w.

(** Lines 59-66. *)
Definition mouseMoveEvent (e : QMouseEvent) (w : DicomImageWidget) : DicomImageWidget :=
  if isDragging w then
    let dx := int_sub (px (pos e)) (px (lastPanPoint w)) in
    let dy := int_sub (py (pos e)) (py (lastPanPoint w)) in
    let v1 := hbarSetValue (int_sub (hbarValue (view w)) dx) (view w) in
    let v2 := vbarSetValue (int_sub (vbarValue v1) dy) v1 in
    mkWidget v2 (pixmapItem w) (currentPixmap w) (scaleFactor w)
      (windowCenter w) (windowWidth w) (isDragging w) (pos e)
  else with_view (baseMouseMoveEvent e (view w)) w.

(** Lines 67-69. *)
Definition mouseReleaseEvent (e : QMouseEvent) (w : DicomImageWidget) : DicomImageWidget :=
  let w1 :=
    if is_middle (button e) then
      mkWidget (setCursor ArrowCursor (view w)) (pixmapItem w) (currentPixmap w)
        (scaleFactor w) (windowCenter w) (windowWidth w) false (lastPanPoint w)
    else w in
  with_view (baseMouseReleaseEvent e (view w1)) w1.

(** The operations that change what part of the image is seen, and at
    what magnification. *)
Inductive ViewOp :=
| OpZoomIn | OpZoomOut | OpResetZoom
| OpWheel (dy : Z)
| OpMousePress (e : QMouseEvent)
| OpMouseMove (e : QMouseEvent)
| OpMouseRelease (e : QMouseEvent).

Definition view_op (w : DicomImageWidget) (op : ViewOp) : DicomImageWidget :=
  match op with
  | OpZoomIn => zoomIn w
  | OpZoomOut => zoomOut w
  | OpResetZoom => resetZoom w
  | OpWheel dy => wheelEvent dy w
  | OpMousePress e => mousePressEvent e w
  | OpMouseMove e => mouseMoveEvent e w
  | OpMouseRelease e => mouseReleaseEvent e w
  end.

(** An image is on display: the state after a load of a non-null pixmap. *)
Definition loaded (w : DicomImageWidget) : Prop :=
  is_Some (pixmapItem w) ∧ isNull (currentPixmap w) = false.

(** A run of view operations, and a run of window/level settings. *)
Definition view_ops (w : DicomImageWidget) (ops : list ViewOp) : DicomImageWidget :=
  foldl view_op w ops.

Definition adjust_many (w : DicomImageWidget) (settings : list (Z * Z)) : DicomImageWidget :=
  foldl (λ s cw, adjustWindowLevel cw.1 cw.2 s) w settings.

End Widget.

Arguments DicomImageWidget V : clear implicits.

(** ** Collaborators of [DicomViewerWindow] *)

(** What the DCMTK branch of [loadDicomFile] (lines 190-199) can meet. *)
Inductive DcmResult :=
| DcmLoadFailed                (* [!st.good()] *)
| DcmNoImage                   (* no image, or its status is not [EIS_Normal] *)
| DcmNoPixelData               (* [getOutputData(8)] is null *)
| DcmPixels (pixmap : QPixmap) (* the pixmap made from the 8-bit output data;
                                  DCMTK gives no [EIS_Normal] image without rows
                                  or columns, so it is not null *).

(** The build ([DCMTK_AVAILABLE]) and the files the process can read. *)
Record Env := mkEnv {
  DCMTK_AVAILABLE : bool;
  dcmtk_read : string → DcmResult;      (* DCMTK on a path *)
  pixmap_read : string → QPixmap;       (* [QPixmap pix(path)], null when unreadable *)
  dir_entries : string → list (string * string)
    (* [dir.entryInfoList(filters, QDir::Files)]: absolute path and base name *)
}.

Record WorklistEntry := mkEntry {
  patient_name : string;
  study_description : string;
  dicom_path : string
}.

(** The reply body after [QJsonDocument::fromJson]: a parse error, an
    array of entries, or an object whose ["worklist"] member is read as an
    array of entries. *)
Inductive JsonDocument :=
| JsonParseError
| JsonArray (items : list WorklistEntry)
| JsonObject (worklist : list WorklistEntry).

Inductive NetworkReply :=
| ReplyError (errorString : string)
| ReplyData (doc : JsonDocument).

(** ** [DicomViewerWindow] *)

Section Window.
Context {V : Type} `{!QGraphicsView V}.

Record DicomViewerWindow := mkWindow {
  imageWidget : DicomImageWidget V;
  seriesList : list string;          (* the item texts *)
  seriesRow : Z;                     (* [seriesList->currentRow()] *)
  currentSeries : list string;
  windowCenterSlider : Z;
  windowWidthSlider : Z;
  windowCenterSpin : Z;
  windowWidthSpin : Z;
  progressBarVisible : bool;
  statusLabel : string;
  djangoBaseUrl : string;
  authToken : string;
  pendingReplies : gset nat;         (* replies of [networkManager->get] still connected *)
  nextReply : nat
}.

Definition set_imageWidget (iw : DicomImageWidget V) (w : DicomViewerWindow) :=
  mkWindow iw (seriesList w) (seriesRow w) (currentSeries w)
    (windowCenterSlider w) (windowWidthSlider w) (windowCenterSpin w) (windowWidthSpin w)
    (progressBarVisible w) (statusLabel w) (djangoBaseUrl w) (authToken w)
    (pendingReplies w) (nextReply w).

Definition set_series (items : list string) (row : Z) (paths : list string)
    (w : DicomViewerWindow) :=
  mkWindow (imageWidget w) items row paths
    (windowCenterSlider w) (windowWidthSlider w) (windowCenterSpin w) (windowWidthSpin w)
    (progressBarVisible w) (statusLabel w) (djangoBaseUrl w) (authToken w)
    (pendingReplies w) (nextReply w).

Definition set_seriesRow (row : Z) (w : DicomViewerWindow) :=
  set_series (seriesList w) row (currentSeries w) w.

Definition set_center (slider spin : Z) (w : DicomViewerWindow) :=
  mkWindow (imageWidget w) (seriesList w) (seriesRow w) (currentSeries w)
    slider (windowWidthSlider w) spin (windowWidthSpin w)
    (progressBarVisible w) (statusLabel w) (djangoBaseUrl w) (authToken w)
    (pendingReplies w) (nextReply w).

Definition set_width (slider spin : Z) (w : DicomViewerWindow) :=
  mkWindow (imageWidget w) (seriesList w) (seriesRow w) (currentSeries w)
    (windowCenterSlider w) slider (windowCenterSpin w) spin
    (progressBarVisible w) (statusLabel w) (djangoBaseUrl w) (authToken w)
    (pendingReplies w) (nextReply w).

Definition set_progressBarVisible (b : bool) (w : DicomViewerWindow) :=
  mkWindow (imageWidget w) (seriesList w) (seriesRow w) (currentSeries w)
    (windowCenterSlider w) (windowWidthSlider w) (windowCenterSpin w) (windowWidthSpin w)
    b (statusLabel w) (djangoBaseUrl w) (authToken w)
    (pendingReplies w) (nextReply w).

Definition set_statusLabel (text : string) (w : DicomViewerWindow) :=
  mkWindow (imageWidget w) (seriesList w) (seriesRow w) (currentSeries w)
    (windowCenterSlider w) (windowWidthSlider w) (windowCenterSpin w) (windowWidthSpin w)
    (progressBarVisible w) text (djangoBaseUrl w) (authToken w)
    (pendingReplies w) (nextReply w).

Definition set_replies (pending : gset nat) (next : nat) (w : DicomViewerWindow) :=
  mkWindow (imageWidget w) (seriesList w) (seriesRow w) (currentSeries w)
    (windowCenterSlider w) (windowWidthSlider w) (windowCenterSpin w) (windowWidthSpin w)
    (progressBarVisible w) (statusLabel w) (djangoBaseUrl w) (authToken w)
    pending next.

(** The source of a load cannot be shown: DCMTK gives no pixel data, or
    the pixmap read from the file is null (no data, or no extent). *)
Definition load_fails (env : Env) (path : string) : bool :=
  if DCMTK_AVAILABLE env then
    match dcmtk_read env path with
    | DcmPixels _ => false
    | _ => true
    end
  else isNull (pixmap_read env path).

(** The pixmap a load hands to the widget when it does not fail. *)
Definition decoded (env : Env) (path : string) : QPixmap :=
  if DCMTK_AVAILABLE env then
    match dcmtk_read env path with
    | DcmPixels pixmap => pixmap
    | _ => null_pixmap
    end
  else pixmap_read env path.

(** The texts [loadDicomFile] shows when it cannot load. *)
Definition load_errors : list string :=
  [ "Error: No pixel data"; "Error: Cannot create DICOM image";
    "Error: Cannot load DICOM file"; "Error: Cannot load file" ].

(** Lines 188-204. *)
Definition loadDicomFile (env : Env) (path : string) (w : DicomViewerWindow)
    : DicomViewerWindow :=
  let w1 := set_statusLabel "Loading DICOM file..." (set_progressBarVisible true w) in
  let w2 :=
    if DCMTK_AVAILABLE env then
      match dcmtk_read env path with
      | DcmPixels pixmap =>
          set_statusLabel "DICOM file loaded"
            (set_imageWidget (setDicomImage pixmap (imageWidget w1)) w1)
      | DcmNoPixelData => set_statusLabel "Error: No pixel data" w1
      | DcmNoImage => set_statusLabel "Error: Cannot create DICOM image" w1
      | DcmLoadFailed => set_statusLabel "Error: Cannot load DICOM file" w1
      end
    else
      let pix := pixmap_read env path in
      if negb (isNull pix) then
        set_statusLabel "Image loaded (not DICOM processed)"
          (set_imageWidget (setDicomImage pix (imageWidget w1)) w1)
      else set_statusLabel "Error: Cannot load file" w1 in
  set_progressBarVisible false w2.

(** Line 107; [fn] is what the file dialog returned. *)
Definition openDicomFile (env : Env) (fn : string) (w : DicomViewerWindow) :=
  if negb (String.eqb fn "") then loadDicomFile env fn w else w.

(** Line 109. *)
Definition onSeriesSelectionChanged (env : Env) (w : DicomViewerWindow) :=
  let row := seriesRow w in
  if (0 <=? row) && (row <? Z.of_nat (length (currentSeries w))) then
    match currentSeries w !! Z.to_nat row with
    | Some path => loadDicomFile env path w
    | None => w
    end
  else w.

(** Line 186. *)
Definition loadDicomSeries (env : Env) (folder : string) (w : DicomViewerWindow) :=
  let files := dir_entries env folder in
  let w1 := set_series (snd <$> files) (-1) (fst <$> files) w in
  let w2 := set_statusLabel
              ("Found " +:+ pretty (length (currentSeries w1)) +:+ " DICOM files") w1 in
  match currentSeries w2 with
  | [] => w2
  | _ :: _ => onSeriesSelectionChanged env (set_seriesRow 0 w2)
  end.

(** Line 108. *)
Definition openDicomFolder (env : Env) (dir : string) (w : DicomViewerWindow) :=
  if negb (String.eqb dir "") then loadDicomSeries env dir w else w.

(** The ranges given to the sliders on lines 142 and 145. *)
Definition center_slider_value (v : Z) : Z := qBound (-1000) v 3000.
Definition width_slider_value (v : Z) : Z := qBound 1 v 4000.

(** Line 110. *)
Definition onWindowCenterChanged (v : Z) (w : DicomViewerWindow) :=
  let w1 := set_center (windowCenterSlider w) v w in
  set_imageWidget (adjustWindowLevel v (windowWidthSlider w1) (imageWidget w1)) w1.

(** Line 111. *)
Definition onWindowWidthChanged (v : Z) (w : DicomViewerWindow) :=
  let w1 := set_width (windowWidthSlider w) v w in
  set_imageWidget (adjustWindowLevel (windowCenterSlider w1) v (imageWidget w1)) w1.

(** Lines 206-220. *)
Definition entry_label (e : WorklistEntry) : string :=
  patient_name e +:+ " - " +:+ study_description e.

Definition processWorklistResponse (doc : JsonDocument) (w : DicomViewerWindow) :=
  match doc with
  | JsonParseError => set_statusLabel "Invalid worklist JSON" w
  | JsonArray items | JsonObject items =>
      let w1 := set_series (entry_label <$> items) (-1) (dicom_path <$> items) w in
      set_statusLabel
        ("Worklist updated: " +:+ pretty (length (seriesList w1)) +:+ " items") w1
  end.

(** Lines 112-116: the request is sent and its reply awaited. *)
Definition refreshWorklist (w : DicomViewerWindow) :=
  if String.eqb (djangoBaseUrl w) "" then w
  else set_replies ({[ nextReply w ]} ∪ pendingReplies w) (S (nextReply w)) w.

(** Lines 117-121: the slot connected to [finished] of reply [id]. *)
Definition onReplyFinished (id : nat) (r : NetworkReply) (w : DicomViewerWindow) :=
  if bool_decide (id ∈ pendingReplies w) then
    let w1 :=
      match r with
      | ReplyData doc => processWorklistResponse doc w
      | ReplyError msg => set_statusLabel ("Error fetching worklist: " +:+ msg) w
      end in
    set_replies (pendingReplies w1 ∖ {[ id ]}) (nextReply w1) w1
  else w.

(** The constructor, lines 98-105, with the settings it reads. *)
Definition newWindow (baseUrl token : string) : DicomViewerWindow :=
  refreshWorklist
    (mkWindow newWidget [] (-1) [] 128 256 128 256 false "Ready" baseUrl token ∅ 0).

(** What the event loop delivers to the window, one at a time. *)
Inductive Event :=
| EvOpenDicomFile (fn : string)
| EvOpenDicomFolder (dir : string)
| EvSeriesRow (row : Z)                 (* the user picks a row of the list *)
| EvCenterSlider (v : Z)                (* the user moves a slider *)
| EvWidthSlider (v : Z)
| EvRefreshWorklist                     (* timer or button *)
| EvReplyFinished (id : nat) (r : NetworkReply)
| EvView (op : ViewOp).

Definition handle (env : Env) (w : DicomViewerWindow) (ev : Event) : DicomViewerWindow :=
  match ev with
  | EvOpenDicomFile fn => openDicomFile env fn w
  | EvOpenDicomFolder dir => openDicomFolder env dir w
  | EvSeriesRow row => onSeriesSelectionChanged env (set_seriesRow row w)
  | EvCenterSlider v =>
      let v' := center_slider_value v in
      onWindowCenterChanged v' (set_center v' (windowCenterSpin w) w)
  | EvWidthSlider v =>
      let v' := width_slider_value v in
      onWindowWidthChanged v' (set_width v' (windowWidthSpin w) w)
  | EvRefreshWorklist => refreshWorklist w
  | EvReplyFinished id r => onReplyFinished id r w
  | EvView op => set_imageWidget (view_op (imageWidget w) op) w
  end.

(** Events are handled to completion, in arrival order. *)
Definition run (env : Env) (w : DicomViewerWindow) (evs : list Event) : DicomViewerWindow :=
  foldl (handle env) w evs.

End Window.

Arguments DicomViewerWindow V : clear implicits.

(** ** States the window can be in

    What holds of the window after the constructor and any events. *)

Section Invariants.
Context {V : Type} `{!QGraphicsView V}.

(** The widget's parameters are the values of the sliders, inside the
    ranges the sliders were given on lines 142 and 145. *)
Definition in_sync (w : DicomViewerWindow V) : Prop :=
  windowCenter (imageWidget w) = windowCenterSlider w ∧
  windowWidth (imageWidget w) = windowWidthSlider w ∧
  -1000 <= windowCenterSlider w <= 3000 ∧
  1 <= windowWidthSlider w <= 4000.

(** What the scene shows is nothing, the source as it was loaded, or the
    transform of the source under the widget's current parameters. *)
Definition display_ok (iw : DicomImageWidget V) : Prop :=
  pixmapItem iw = None ∨
  pixmapItem iw = Some (currentPixmap iw) ∨
  pixmapItem iw
    = Some (window_image (windowCenter iw) (windowWidth iw) (currentPixmap iw)).

End Invariants.

(** ** Settings ([loadSettings], [saveSettings], [configureDjangoConnection])

    [QSettings] is the store of the application's keys; the values kept
    under the two keys are strings. *)

Definition key_baseUrl : string := "django/baseUrl".
Definition key_authToken : string := "django/authToken".

(** [qEnvironmentVariable("DICOM_VIEWER_BASE_URL", "http://localhost:8000/viewer")];
    [envvar] is the variable, [None] when it is not set. *)
Definition default_base_url (envvar : option string) : string :=
  default "http://localhost:8000/viewer" envvar.

Section Settings.
Context {V : Type} `{!QGraphicsView V}.

Definition set_connection (url token : string) (w : DicomViewerWindow V) :=
  mkWindow (imageWidget w) (seriesList w) (seriesRow w) (currentSeries w)
    (windowCenterSlider w) (windowWidthSlider w) (windowCenterSpin w) (windowWidthSpin w)
    (progressBarVisible w) (statusLabel w) url token
    (pendingReplies w) (nextReply w).

(** Line 183. *)
Definition loadSettings (envvar : option string) (store : gmap string string)
    (w : DicomViewerWindow V) : DicomViewerWindow V :=
  set_connection
    (default (default_base_url envvar) (store !! key_baseUrl))
    (default "" (store !! key_authToken)) w.

(** Line 184. *)
Definition saveSettings (w : DicomViewerWindow V) (store : gmap string string)
    : gmap string string :=
  <[key_authToken := authToken w]> (<[key_baseUrl := djangoBaseUrl w]> store).

(** How the dialog of line 123 was closed. *)
Inductive DialogResult :=
| Rejected
| Accepted (urlEdit tokenEdit : string).

(** Line 123. *)
Definition configureDjangoConnection (d : DialogResult)
    (w : DicomViewerWindow V) (store : gmap string string)
    : DicomViewerWindow V * gmap string string :=
  match d with
  | Accepted url token =>
      let w1 := set_connection url token w in
      (set_statusLabel "Django connection configured" w1, saveSettings w1 store)
  | Rejected => (w, store)
  end.

(** The constructor (lines 98-105) on a given store: [setupUI] leaves the
    window with the default base URL, [loadSettings] reads the store, then
    the worklist is requested. *)
Definition startWindow (envvar : option string) (store : gmap string string)
    : DicomViewerWindow V :=
  refreshWorklist
    (loadSettings envvar store
       (mkWindow newWidget [] (-1) [] 128 256 128 256 false "Ready"
          (default_base_url envvar) "" ∅ 0)).

End Settings.

(** ** A small environment to run the model in

    A build without DCMTK and two readable image files. *)

Definition demo_env : Env :=
  mkEnv false (λ _, DcmLoadFailed)
    (λ path, if String.eqb path "a.png" then mkImage 1 1 [[10]]
             else if String.eqb path "b.png" then mkImage 1 1 [[20]]
             else null_pixmap)
    (λ _, []).

(** The same with a folder that lists the two files. *)
Definition demo_folder_env : Env :=
  mkEnv false (λ _, DcmLoadFailed) (pixmap_read demo_env)
    (λ _, [("a.png", "a"); ("b.png", "b")]).

Definition entryA : WorklistEntry := mkEntry "Ann" "CT" "a.png".
Definition entryB : WorklistEntry := mkEntry "Bob" "MR" "b.png".

Definition demo_url : string := "http://localhost:8000/viewer".

(** ** A view that records the toolkit calls made on it

    The reference instance of [QGraphicsView] used to run the model on
    concrete inputs: the state is the list of calls so far, latest first,
    and a scroll bar reports the last value it was given. *)

Inductive ViewCall :=
| CallScale (sx sy : double)
| CallResetTransform
| CallFitInView (r : QRect)
| CallSetSceneRect (r : QRect)
| CallHbarSetValue (v : Z)
| CallVbarSetValue (v : Z)
| CallSetCursor (c : CursorShape)
| CallMousePress (e : QMouseEvent)
| CallMouseMove (e : QMouseEvent)
| CallMouseRelease (e : QMouseEvent).

Fixpoint last_hbar (log : list ViewCall) : Z :=
  match log with
  | [] => 0
  | CallHbarSetValue v :: _ => v
  | _ :: log' => last_hbar log'
  end.

Fixpoint last_vbar (log : list ViewCall) : Z :=
  match log with
  | [] => 0
  | CallVbarSetValue v :: _ => v
  | _ :: log' => last_vbar log'
  end.

#[global] Instance recording_view : QGraphicsView (list ViewCall) := {
  view_new := [];
  scale sx sy log := CallScale sx sy :: log;
  resetTransform log := CallResetTransform :: log;
  fitInView r log := CallFitInView r :: log;
  setSceneRect r log := CallSetSceneRect r :: log;
  hbarValue := last_hbar;
  hbarSetValue v log := CallHbarSetValue v :: log;
  vbarValue := last_vbar;
  vbarSetValue v log := CallVbarSetValue v :: log;
  setCursor c log := CallSetCursor c :: log;
  baseMousePressEvent e log := CallMousePress e :: log;
  baseMouseMoveEvent e log := CallMouseMove e :: log;
  baseMouseReleaseEvent e log := CallMouseRelease e :: log
}.

(** * Properties *)

(** ** Integers and bounds *)

Lemma qMax_max (a b : Z) : qMax a b = Z.max a b.
Proof. unfold qMax. destruct (Z.ltb_spec a b); lia. Qed.

Lemma qMin_min (a b : Z) : qMin a b = Z.min a b.
Proof. unfold qMin. destruct (Z.ltb_spec a b); lia. Qed.

Lemma qBound_clamp (lo v hi : Z) : qBound lo v hi = clamp v lo hi.
Proof. unfold qBound, clamp. by rewrite qMax_max, qMin_min. Qed.

Lemma qBound_range (lo v hi : Z) : lo <= hi → lo <= qBound lo v hi <= hi.
Proof. intros. rewrite qBound_clamp. unfold clamp. lia. Qed.

Lemma to_uchar_byte (n : Z) : 0 <= n <= 255 → to_uchar n = n.
Proof. intros. unfold to_uchar. apply Z.mod_small. lia. Qed.

Lemma is_int_spec (z : Z) : is_int z = true ↔ - 2 ^ 31 <= z <= 2 ^ 31 - 1.
Proof. unfold is_int, INT_MIN, INT_MAX. rewrite andb_true_iff. lia. Qed.

Lemma wrap_int_id (z : Z) : is_int z = true → wrap_int z = z.
Proof.
  rewrite is_int_spec. intros. unfold wrap_int.
  rewrite Z.mod_small; lia.
Qed.

Lemma to_int_truncate (x : double) (t : Z) :
  truncate x = Some t → is_int t = true → to_int x = t.
Proof. unfold to_int. by intros -> ->. Qed.

Lemma int_defined_truncate (x : double) :
  int_defined x = true → ∃ t, truncate x = Some t ∧ is_int t = true.
Proof.
  unfold int_defined. destruct (truncate x) as [t|]; [|done]. eauto.
Qed.

(** ** Magnitude of binary64 results

    Every operation of [SpecFloat] ends in [binary_round_aux]: the
    mantissa is shifted right until it fits the precision, rounded to
    nearest even, and shifted once more if the rounding carried. A number
    below [2 ^ k] therefore rounds to a number below [2 ^ (k + 1)]; this is
    enough to show that the value the transform converts to [int] is in
    the range of [int]. *)

Lemma digits2_size (p : positive) : digits2_pos p = Pos.size p.
Proof. induction p as [p IH|p IH|]; simpl; by rewrite ?IH. Qed.

Lemma digits2_log2 (p : positive) : Zpos (digits2_pos p) = Z.log2 (Zpos p) + 1.
Proof.
  rewrite digits2_size. destruct p as [p|p|]; simpl; try lia.
Qed.

Lemma digits2_bounds (p : positive) :
  2 ^ (Zpos (digits2_pos p) - 1) <= Zpos p < 2 ^ Zpos (digits2_pos p).
Proof.
  rewrite digits2_log2.
  replace (Z.log2 (Zpos p) + 1 - 1) with (Z.log2 (Zpos p)) by lia.
  replace (Z.log2 (Zpos p) + 1) with (Z.succ (Z.log2 (Zpos p))) by lia.
  apply Z.log2_spec. lia.
Qed.

Lemma digits2_le (p : positive) (k : Z) :
  Zpos p < 2 ^ k → Zpos (digits2_pos p) <= k.
Proof.
  intros Hp. destruct (digits2_bounds p) as [Hlo _].
  destruct (Z.le_gt_cases (Zpos (digits2_pos p)) k) as [|Hgt]; [done|].
  assert (2 ^ k <= 2 ^ (Zpos (digits2_pos p) - 1))
    by (apply Z.pow_le_mono_r; lia).
  lia.
Qed.

Lemma Zdigits2_le (m k : Z) : 0 <= m < 2 ^ k → Zdigits2 m <= k.
Proof.
  intros [Hm Hk]. destruct m as [|p|p]; simpl; [|by apply digits2_le|lia].
  destruct (Z.le_gt_cases 0 k) as [|Hneg]; [done|].
  rewrite Z.pow_neg_r in Hk; lia.
Qed.

Lemma pow2_pos (k : Z) : 0 <= k → 0 < 2 ^ k.
Proof. intros. apply Z.pow_pos_nonneg; lia. Qed.

Lemma pow2_exp_nonneg (m k : Z) : 0 <= m < 2 ^ k → 0 <= k.
Proof.
  intros [Hm Hk]. destruct (Z.le_gt_cases 0 k) as [|Hneg]; [done|].
  rewrite Z.pow_neg_r in Hk; lia.
Qed.

(** *** Shifting the mantissa right *)

Lemma shr_1_m (mrs : shr_record) :
  0 <= shr_m mrs → shr_m (shr_1 mrs) = shr_m mrs / 2.
Proof.
  destruct mrs as [m r s]. simpl. intros Hm.
  destruct m as [|[p|p|]|p]; simpl; try lia; try done.
  - rewrite (Pos2Z.inj_xI p). apply Z.div_unique with 1; lia.
  - rewrite (Pos2Z.inj_xO p). apply Z.div_unique with 0; lia.
Qed.

Lemma iter_shr_m (n : positive) (mrs : shr_record) :
  0 <= shr_m mrs →
  shr_m (SpecFloat.iter_pos shr_1 n mrs) = shr_m mrs / 2 ^ Zpos n.
Proof.
  revert mrs. induction n as [n IH|n IH|]; intros mrs Hm; simpl.
  - assert (H1 : 0 <= shr_m (shr_1 mrs))
      by (rewrite shr_1_m by done; apply Z.div_pos; lia).
    assert (H2 : 0 <= shr_m (SpecFloat.iter_pos shr_1 n (shr_1 mrs)))
      by (rewrite IH by done; apply Z.div_pos; [done|apply pow2_pos; lia]).
    rewrite IH, IH, shr_1_m by done.
    rewrite !Z.div_div by (try apply pow2_pos; lia).
    f_equal. rewrite (Pos2Z.inj_xI n), <- (Z.pow_1_r 2) at 1.
    rewrite <- !Z.pow_add_r by lia. f_equal. lia.
  - assert (H2 : 0 <= shr_m (SpecFloat.iter_pos shr_1 n mrs))
      by (rewrite IH by done; apply Z.div_pos; [done|apply pow2_pos; lia]).
    rewrite IH, IH by done.
    rewrite !Z.div_div by (try apply pow2_pos; lia).
    f_equal. rewrite (Pos2Z.inj_xO n).
    rewrite <- !Z.pow_add_r by lia. f_equal. lia.
  - rewrite shr_1_m by done. by rewrite Z.pow_1_r.
Qed.

Lemma shr_record_of_loc_m (m : Z) (l : location) :
  shr_m (shr_record_of_loc m l) = m.
Proof. destruct l as [|[]]; done. Qed.

Lemma fexp_le (a b : Z) : a <= b → fexp prec emax a <= fexp prec emax b.
Proof. unfold fexp, emin, prec, emax. lia. Qed.

Lemma fexp_self (k : Z) : -1074 <= k → fexp prec emax k <= k.
Proof. unfold fexp, emin, prec, emax. lia. Qed.

(** [shr_fexp] keeps the number below [2 ^ k]. *)
Lemma shr_fexp_fits (m e : Z) (l : location) (k : Z) :
  0 <= m < 2 ^ (k - e) → -1074 <= k →
  0 <= shr_m (shr_fexp prec emax m e l).1 < 2 ^ (k - (shr_fexp prec emax m e l).2) ∧
  (shr_fexp prec emax m e l).2 <= Z.max e (fexp prec emax k).
Proof.
  intros Hm Hk. unfold shr_fexp, shr.
  pose proof (pow2_exp_nonneg _ _ Hm) as Hke.
  assert (Hd : Zdigits2 m + e <= k) by (pose proof (Zdigits2_le _ _ Hm); lia).
  pose proof (fexp_le _ _ Hd) as Hf. pose proof (fexp_self k Hk) as Hs.
  destruct (fexp prec emax (Zdigits2 m + e) - e) as [|n|n] eqn:Hn; simpl;
    rewrite ?shr_record_of_loc_m; try (split; [done|lia]).
  rewrite iter_shr_m by (rewrite shr_record_of_loc_m; lia).
  rewrite shr_record_of_loc_m. split; [|lia]. split.
  - apply Z.div_pos; [lia|apply pow2_pos; lia].
  - apply Z.div_lt_upper_bound; [apply pow2_pos; lia|].
    rewrite <- Z.pow_add_r by lia.
    replace (Zpos n + (k - (e + Zpos n))) with (k - e) by lia. lia.
Qed.

Lemma round_nearest_even_bounds (m : Z) (l : location) :
  m <= round_nearest_even m l <= m + 1.
Proof. destruct l as [|[]]; simpl; try lia. destruct (Z.even m); lia. Qed.

(** Rounding keeps a number below [2 ^ k] below [2 ^ (k + 1)], and finite. *)
Lemma round_aux_below (s : bool) (mx ex : Z) (l : location) (k : Z) :
  0 <= mx < 2 ^ (k - ex) → -1074 <= k <= 900 →
  below (binary_round_aux prec emax s mx ex l) (k + 1).
Proof.
  intros Hm Hk. unfold binary_round_aux.
  destruct (shr_fexp_fits mx ex l k Hm ltac:(lia)) as [H1 He1].
  pose proof (pow2_exp_nonneg _ _ Hm) as Hke.
  destruct (shr_fexp prec emax mx ex l) as [mrs' e'] eqn:E1. simpl in H1, He1.
  pose proof (pow2_exp_nonneg _ _ H1) as Hke'.
  pose proof (round_nearest_even_bounds (shr_m mrs') (loc_of_shr_record mrs')) as Hr.
  set (m2 := round_nearest_even (shr_m mrs') (loc_of_shr_record mrs')) in *.
  assert (H2 : 0 <= m2 < 2 ^ (k + 1 - e')).
  { split; [lia|].
    replace (k + 1 - e') with (Z.succ (k - e')) by lia.
    rewrite Z.pow_succ_r by lia. lia. }
  destruct (shr_fexp_fits m2 e' loc_Exact (k + 1) H2 ltac:(lia)) as [H3 He3].
  destruct (shr_fexp prec emax m2 e' loc_Exact) as [mrs'' e''] eqn:E2.
  simpl in H3, He3.
  assert (e'' <= 971).
  { revert He1 He3. unfold fexp, emin, prec, emax. lia. }
  destruct (shr_m mrs'') as [|m|m]; simpl; [done| |lia].
  replace (e'' <=? emax - prec) with true
    by (symmetry; apply Z.leb_le; unfold emax, prec; lia).
  simpl. lia.
Qed.

Lemma below_mono (x : double) (k k' : Z) : below x k → k <= k' → below x k'.
Proof.
  destruct x as [| | |s m e]; simpl; try done. intros Hm Hk.
  assert (0 <= k - e) by (apply (pow2_exp_nonneg (Zpos m)); lia).
  assert (2 ^ (k - e) <= 2 ^ (k' - e)) by (apply Z.pow_le_mono_r; lia). lia.
Qed.

(** *** Aligning the mantissa to a smaller exponent *)

Lemma shl_align_value (mx : positive) (ex ex' : Z) :
  (shl_align mx ex ex').2 <= ex ∧
  Zpos (shl_align mx ex ex').1 = Zpos mx * 2 ^ (ex - (shl_align mx ex ex').2).
Proof.
  unfold shl_align. destruct (ex' - ex) as [|d|d] eqn:Hd; simpl.
  - rewrite Z.sub_diag. lia.
  - rewrite Z.sub_diag. lia.
  - split; [lia|]. replace (ex - ex') with (Zpos d) by lia.
    pose proof (Zpower.shift_pos_correct d mx) as Hs.
    unfold Zpower.shift_pos in Hs. rewrite Hs. simpl. lia.
Qed.

Lemma shl_align_fits (mx : positive) (ex ex' k : Z) :
  Zpos mx < 2 ^ (k - ex) →
  Zpos (shl_align mx ex ex').1 < 2 ^ (k - (shl_align mx ex ex').2).
Proof.
  intros Hm. destruct (shl_align_value mx ex ex') as [He ->].
  assert (0 <= k - ex) by (apply (pow2_exp_nonneg (Zpos mx)); lia).
  replace (k - (shl_align mx ex ex').2)
    with ((k - ex) + (ex - (shl_align mx ex ex').2)) by lia.
  rewrite Z.pow_add_r by lia.
  apply Z.mul_lt_mono_pos_r; [apply pow2_pos; lia|done].
Qed.

Lemma binary_round_below (s : bool) (m : positive) (e k : Z) :
  Zpos m < 2 ^ (k - e) → -1074 <= k <= 900 →
  below (binary_round prec emax s m e) (k + 1).
Proof.
  intros Hm Hk. unfold binary_round.
  pose proof (shl_align_fits m e (fexp prec emax (Zpos (digits2_pos m) + e)) k Hm) as Hf.
  destruct (shl_align m e _) as [mz ez]. simpl in Hf.
  apply round_aux_below; lia.
Qed.

Lemma binary_normalize_below (z e : Z) (sz : bool) (k : Z) :
  Z.abs z < 2 ^ (k - e) → -1074 <= k <= 900 →
  below (binary_normalize prec emax z e sz) (k + 1).
Proof.
  intros Hz Hk. destruct z as [|m|m]; simpl; [done| |];
    apply binary_round_below; done.
Qed.

Lemma of_int_below (z k : Z) :
  Z.abs z < 2 ^ k → 0 <= k <= 900 → below (of_int z) (k + 1).
Proof.
  intros Hz Hk. apply binary_normalize_below; [|lia].
  by rewrite Z.sub_0_r.
Qed.

(** *** Multiplication and addition *)

Lemma mul_below (x y : double) (kx ky : Z) :
  below x kx → below y ky → -1074 <= kx + ky <= 900 →
  below (mul x y) (kx + ky + 1).
Proof.
  intros Hx Hy Hk.
  destruct x as [sx|sx| |sx mx ex], y as [sy|sy| |sy my ey]; simpl in *; try done.
  apply round_aux_below; [|done].
  assert (0 <= kx - ex) by (apply (pow2_exp_nonneg (Zpos mx)); lia).
  assert (0 <= ky - ey) by (apply (pow2_exp_nonneg (Zpos my)); lia).
  replace (kx + ky - (ex + ey)) with ((kx - ex) + (ky - ey)) by lia.
  rewrite Z.pow_add_r, Pos2Z.inj_mul by lia.
  split; [lia|]. apply Z.mul_lt_mono_nonneg; lia.
Qed.

Lemma add_below (x y : double) (k : Z) :
  below x k → below y k → -1075 <= k <= 899 →
  below (add x y) (k + 2).
Proof.
  intros Hx Hy Hk.
  destruct x as [sx|sx| |sx mx ex], y as [sy|sy| |sy my ey]; try done.
  - simpl. by destruct sx, sy.
  - apply (below_mono _ k); [done|lia].
  - apply (below_mono _ k); [done|lia].
  - unfold add, SFadd.
    replace (k + 2) with ((k + 1) + 1) by lia.
    apply binary_normalize_below; [|lia].
    pose proof (shl_align_fits mx ex (Z.min ex ey) k Hx) as Hax.
    pose proof (shl_align_fits my ey (Z.min ex ey) k Hy) as Hay.
    destruct (shl_align_value mx ex (Z.min ex ey)) as [_ Hvx].
    destruct (shl_align_value my ey (Z.min ex ey)) as [_ Hvy].
    assert (Hex : (shl_align mx ex (Z.min ex ey)).2 = Z.min ex ey).
    { unfold shl_align. destruct (Z.min ex ey - ex) eqn:?; simpl; lia. }
    assert (Hey : (shl_align my ey (Z.min ex ey)).2 = Z.min ex ey).
    { unfold shl_align. destruct (Z.min ex ey - ey) eqn:?; simpl; lia. }
    rewrite Hex in Hax. rewrite Hey in Hay.
    assert (0 <= k - Z.min ex ey)
      by (apply (pow2_exp_nonneg (Zpos (shl_align mx ex (Z.min ex ey)).1)); lia).
    replace (k + 1 - Z.min ex ey) with (Z.succ (k - Z.min ex ey)) by lia.
    rewrite Z.pow_succ_r by lia.
    set (ax := Zpos (shl_align mx ex (Z.min ex ey)).1) in *.
    set (ay := Zpos (shl_align my ey (Z.min ex ey)).1) in *.
    assert (0 < ax ∧ 0 < ay) as [? ?] by (unfold ax, ay; lia).
    clearbody ax ay. destruct sx, sy; unfold cond_Zopp; lia.
Qed.

(** *** Exact conversions and division *)

Lemma digits2_unique (p : positive) (d : Z) :
  2 ^ (d - 1) <= Zpos p < 2 ^ d → Zpos (digits2_pos p) = d.
Proof.
  intros Hp. rewrite digits2_log2.
  assert (0 <= d) by (apply (pow2_exp_nonneg (Zpos p)); lia).
  assert (d ≠ 0) by (intros ->; simpl in Hp; lia).
  rewrite (Z.log2_unique (Zpos p) (d - 1)); [lia|lia|].
  by replace (Z.succ (d - 1)) with d by lia.
Qed.

(** A mantissa of 53 bits in the exponent range is left as it is. *)
Lemma round_aux_canonical (s : bool) (m : positive) (e : Z) :
  Zpos (digits2_pos m) = 53 → -1074 <= e <= 971 →
  binary_round_aux prec emax s (Zpos m) e loc_Exact = S754_finite s m e.
Proof.
  intros Hd He. unfold binary_round_aux, shr_fexp. simpl Zdigits2.
  assert (Hn : fexp prec emax (Zpos (digits2_pos m) + e) - e = 0)
    by (rewrite Hd; unfold fexp, emin, prec, emax; lia).
  rewrite Hn. simpl. rewrite Hn. simpl.
  replace (e <=? emax - prec) with true
    by (symmetry; apply Z.leb_le; unfold emax, prec; lia).
  done.
Qed.

(** Conversion of a positive integer below [2 ^ 53] is exact: the
    mantissa is the integer shifted to 53 bits. *)
Lemma of_int_pos (p : positive) :
  Zpos p < 2 ^ 53 →
  ∃ m, of_int (Zpos p) = S754_finite false m (Zpos (digits2_pos p) - 53) ∧
       Zpos m = Zpos p * 2 ^ (53 - Zpos (digits2_pos p)) ∧
       2 ^ 52 <= Zpos m < 2 ^ 53.
Proof.
  intros Hp. unfold of_int, binary_normalize, binary_round.
  pose proof (digits2_bounds p) as Hb.
  pose proof (digits2_le p 53 Hp) as Hd.
  set (d := Zpos (digits2_pos p)) in *.
  assert (Hf : fexp prec emax (d + 0) = d - 53)
    by (unfold fexp, emin, prec, emax; lia).
  rewrite Hf.
  destruct (shl_align_value p 0 (d - 53)) as [_ Hv].
  assert (He : (shl_align p 0 (d - 53)).2 = d - 53).
  { unfold shl_align. destruct (d - 53 - 0) eqn:?; simpl; lia. }
  rewrite He in Hv. replace (0 - (d - 53)) with (53 - d) in Hv by lia.
  destruct (shl_align p 0 (d - 53)) as [mz ez]. simpl in He, Hv. subst ez.
  assert (Hm : 2 ^ 52 <= Zpos mz < 2 ^ 53).
  { rewrite Hv. assert (0 < 2 ^ (53 - d)) by (apply pow2_pos; lia). split.
    - replace 52 with ((d - 1) + (53 - d)) by lia.
      rewrite Z.pow_add_r by lia. apply Z.mul_le_mono_nonneg_r; lia.
    - replace 53 with (d + (53 - d)) at 2 by lia.
      rewrite Z.pow_add_r by lia. apply Z.mul_lt_mono_pos_r; lia. }
  exists mz. split; [|done].
  apply round_aux_canonical; [|lia].
  by apply digits2_unique.
Qed.

Lemma div_below (sx sy : bool) (m1 m2 : positive) (e1 e2 a b : Z) :
  Zpos m1 < 2 ^ a → 2 ^ b <= Zpos m2 → 0 <= b <= a →
  -1074 <= (a + e1) - (b + e2) <= 900 →
  below (div (S754_finite sx m1 e1) (S754_finite sy m2 e2))
        ((a + e1) - (b + e2) + 1).
Proof.
  intros H1 H2 Hab HK. unfold div, SFdiv, SFdiv_core_binary.
  set (e' := Z.min _ (e1 - e2)).
  assert (Hs : 0 <= e1 - e2 - e') by lia.
  set (m' := match e1 - e2 - e' with
             | 0 => Zpos m1
             | Zpos _ => Z.shiftl (Zpos m1) (e1 - e2 - e')
             | Zneg _ => 0
             end).
  assert (Hm' : m' = Zpos m1 * 2 ^ (e1 - e2 - e')).
  { unfold m'. destruct (e1 - e2 - e') as [|s|s] eqn:Es; [lia| |lia].
    by rewrite Z.shiftl_mul_pow2. }
  pose proof (Z.div_eucl_eq m' (Zpos m2) ltac:(lia)) as Heq.
  pose proof (Z.mod_pos_bound m' (Zpos m2) ltac:(lia)) as Hr.
  unfold Z.modulo in Hr.
  destruct (Z.div_eucl m' (Zpos m2)) as [q r]. simpl in Hr.
  apply round_aux_below; [|done].
  assert (Hp : 0 < 2 ^ (e1 - e2 - e')) by (apply pow2_pos; lia).
  assert (Hq : 0 <= q) by nia.
  split; [done|].
  replace (a + e1 - (b + e2) - e') with ((a - b) + (e1 - e2 - e')) by lia.
  assert (Hlt : m' < 2 ^ b * 2 ^ (a - b + (e1 - e2 - e'))).
  { rewrite <- Z.pow_add_r by lia.
    replace (b + (a - b + (e1 - e2 - e'))) with (a + (e1 - e2 - e')) by lia.
    rewrite Z.pow_add_r, Hm' by lia. apply Z.mul_lt_mono_pos_r; lia. }
  assert (0 < 2 ^ (a - b + (e1 - e2 - e'))) by (apply pow2_pos; lia).
  assert (0 < 2 ^ b) by (apply pow2_pos; lia).
  nia.
Qed.

(** A number below [2 ^ 31] converts to [int]. *)
Lemma below_int_defined (x : double) : below x 31 → int_defined x = true.
Proof.
  unfold int_defined. destruct x as [s|s| |s m e]; simpl; try done.
  intros Hm. apply is_int_spec.
  assert (0 <= 31 - e) by (apply (pow2_exp_nonneg (Zpos m)); lia).
  set (t := match e with
            | Zneg p => Z.shiftr (Zpos m) (Zpos p)
            | _ => Z.shiftl (Zpos m) e
            end).
  assert (Ht : 0 <= t < 2 ^ 31).
  { unfold t. destruct e as [|p|p].
    - rewrite Z.shiftl_0_r. lia.
    - rewrite Z.shiftl_mul_pow2 by lia. split; [lia|].
      replace 31 with ((31 - Zpos p) + Zpos p) by lia.
      rewrite Z.pow_add_r by lia.
      apply Z.mul_lt_mono_pos_r; [apply pow2_pos; lia|done].
    - rewrite Z.shiftr_div_pow2 by lia. split.
      + apply Z.div_pos; [lia|apply pow2_pos; lia].
      + apply Z.div_lt_upper_bound; [apply pow2_pos; lia|].
        rewrite <- Z.pow_add_r by lia.
        by replace (Zpos p + 31) with (31 - Zneg p) by lia. }
  destruct s; unfold cond_Zopp; lia.
Qed.

Lemma slope_below (w : Z) : 1 <= w < 2 ^ 53 → below (div (of_int 255) (of_int w)) 9.
Proof.
  intros Hw. destruct w as [|p|p]; try lia.
  destruct (of_int_pos p ltac:(lia)) as (m & -> & _ & Hm).
  pose proof (digits2_bounds p) as Hb.
  pose proof (digits2_le p 53 ltac:(lia)) as Hd.
  change (of_int 255) with (S754_finite false 8972014882652160 (-45)).
  eapply below_mono.
  - apply (div_below _ _ _ _ _ _ 53 52); [reflexivity|lia|lia|lia].
  - lia.
Qed.

(** ** One sample *)

Lemma window_gray_eq (center width gray : Z) :
  window_gray center width gray
  = clamp (to_int (window_value center width gray)) 0 255.
Proof.
  unfold window_gray, window_value. rewrite qBound_clamp.
  apply to_uchar_byte. unfold clamp. lia.
Qed.

Lemma window_gray_range (center width gray : Z) :
  0 <= window_gray center width gray <= 255.
Proof. rewrite window_gray_eq. unfold clamp. lia. Qed.

(** For a width that is an [int] and a sample within [2 ^ 18] of the
    center, neither the subtraction nor the conversion of lines 78-79 is
    undefined: the value converted is below [2 ^ 31]. *)
Lemma window_value_below (center width gray : Z) :
  Z.abs (gray - center) < 2 ^ 18 → is_int width = true →
  below (window_value center width gray) 31.
Proof.
  intros Hd Hw. apply is_int_spec in Hw.
  unfold window_value, window_slope, int_sub.
  rewrite wrap_int_id by (apply is_int_spec; lia). rewrite qMax_max.
  change 31 with (29 + 2). apply add_below; [| |lia].
  - change 29 with (9 + 19 + 1). apply mul_below; [| |lia].
    + apply slope_below. lia.
    + apply (of_int_below _ 18); [done|lia].
  - by vm_compute.
Qed.

(** A sample equal to the center becomes 127, whatever the width. *)
Lemma window_gray_center (center width : Z) :
  is_int width = true → window_gray center width center = 127.
Proof.
  intros Hw. apply is_int_spec in Hw. rewrite window_gray_eq.
  unfold window_value, window_slope, int_sub.
  rewrite Z.sub_diag, qMax_max.
  pose proof (slope_below (Z.max 1 width) ltac:(lia)) as Hs.
  destruct (div (of_int 255) (of_int (Z.max 1 width))) as [s|s| |s m e];
    try done; by destruct s.
Qed.

Lemma window_value_defined (center width gray : Z) :
  Z.abs (gray - center) < 2 ^ 18 → is_int width = true →
  int_defined (window_value center width gray) = true.
Proof. intros. by apply below_int_defined, window_value_below. Qed.

(** ** The loops *)

Section InPlaceLoop.
Context {A : Type} (f : A → A).

Lemma foldl_turn (a : list A) (n : nat) :
  foldl (turn f) a (seq 0 n) = (f <$> take n a) ++ drop n a.
Proof.
  induction n as [|n IH].
  - by rewrite take_0, drop_0.
  - rewrite seq_S, foldl_app, IH. simpl. unfold turn.
    destruct (decide (n < length a)%nat) as [Hlt|Hge].
    + destruct (lookup_lt_is_Some_2 a n Hlt) as [v Hv].
      assert (Hlen : length (f <$> take n a) = n)
        by (rewrite length_fmap, length_take; lia).
      rewrite lookup_app_r, Hlen, Nat.sub_diag by lia.
      rewrite lookup_drop, Nat.add_0_r, Hv.
      rewrite insert_app_r_alt, Hlen, Nat.sub_diag by lia.
      rewrite (drop_S a v n Hv). simpl.
      rewrite (take_S_r a n v Hv), fmap_app. simpl.
      by rewrite <- app_assoc.
    + rewrite lookup_ge_None_2
        by (rewrite length_app, length_fmap, length_take, length_drop; lia).
      rewrite !take_ge, !drop_ge by lia. done.
Qed.

Lemma foldl_turn_length (a : list A) (n : nat) :
  length (foldl (turn f) a (seq 0 n)) = length a.
Proof.
  rewrite foldl_turn, length_app, length_fmap, length_take, length_drop. lia.
Qed.

Lemma foldl_turn_lookup (a : list A) (n i : nat) (v : A) :
  a !! i = Some v → (i < n)%nat → foldl (turn f) a (seq 0 n) !! i = Some (f v).
Proof.
  intros Hv Hi. rewrite foldl_turn.
  assert (i < length a)%nat by (by eapply lookup_lt_Some).
  rewrite lookup_app_l by (rewrite length_fmap, length_take; lia).
  by rewrite list_lookup_fmap, lookup_take_lt, Hv by lia.
Qed.

Lemma foldl_turn_all (a : list A) (n : nat) :
  (length a ≤ n)%nat → foldl (turn f) a (seq 0 n) = f <$> a.
Proof.
  intros. rewrite foldl_turn, take_ge, drop_ge by lia. by rewrite app_nil_r.
Qed.

End InPlaceLoop.

Lemma window_line_turn (center width w : Z) (line : list Z) :
  window_line center width w line
  = foldl (turn (window_gray center width)) line (seq 0 (Z.to_nat w)).
Proof. reflexivity. Qed.

Lemma window_image_turn (center width : Z) (img : QImage) :
  img_bits (window_image center width img)
  = foldl (turn (window_line center width (img_width img))) (img_bits img)
      (seq 0 (Z.to_nat (img_height img))).
Proof. reflexivity. Qed.

Lemma window_line_length (center width w : Z) (line : list Z) :
  length (window_line center width w line) = length line.
Proof. rewrite window_line_turn. apply foldl_turn_length. Qed.

(** The sample at a valid coordinate is the transform of the source's
    sample at that coordinate. *)
Lemma window_image_pixel (center width : Z) (img : QImage) (x y : nat) (gray : Z) :
  pixel img x y = Some gray →
  (x < Z.to_nat (img_width img))%nat →
  (y < Z.to_nat (img_height img))%nat →
  pixel (window_image center width img) x y = Some (window_gray center width gray).
Proof.
  unfold pixel. intros Hp Hx Hy.
  destruct (img_bits img !! y) as [line|] eqn:Hline; [|done].
  simpl in Hp. rewrite window_image_turn.
  rewrite (foldl_turn_lookup _ _ _ _ _ Hline Hy). simpl.
  rewrite window_line_turn. by apply foldl_turn_lookup.
Qed.

(** On a well formed image the two loops are a map over the samples. *)
Lemma window_image_map (center width : Z) (img : QImage) :
  well_formed img →
  img_bits (window_image center width img)
  = (λ line : list Z, window_gray center width <$> line) <$> img_bits img.
Proof.
  intros [Hh Hrows]. rewrite window_image_turn, foldl_turn_all by lia.
  apply Forall_fmap_ext_1. eapply Forall_impl; [exact Hrows|].
  intros line [Hlen _]. simpl.
  rewrite window_line_turn. apply foldl_turn_all. lia.
Qed.

Lemma foldl_ext_eq {A B : Type} (f g : A → B → A) (a : A) (l : list B) :
  (∀ a b, f a b = g a b) → foldl f a l = foldl g a l.
Proof.
  intros Hfg. revert a. induction l as [|b l IH]; intros a; simpl; [done|].
  by rewrite Hfg, IH.
Qed.

(** ** The per-sample transform *)

(** The rounding of binary64 is part of the result: with center 67 and
    width 201 a black sample has the exact value 42, the computed value
    lies just below it, and the fraction is dropped. *)
Example window_gray_binary64 :
  window_gray 67 201 0 = 41 ∧ 255 * (0 - 67) / 201 + 127 = 42.
Proof. by vm_compute. Qed.

(** C1, as stated, fails: the spec rounds [slope * (input - center) + 127]
    to the nearest integer before clamping, the engine drops the fraction.
    On the one-sample image [129] with center 128 and width 256 the value
    is 127.99609375: the engine stores 127, the spec's formula gives 128. *)
Lemma C1_round_counterexample :
  pixel (mkImage 1 1 [[129]]) 0 0 = Some 129 ∧
  pixel (window_image 128 256 (mkImage 1 1 [[129]])) 0 0 = Some 127 ∧
  spec_output_round 128 256 129 = Some 128 ∧
  pixel (window_image 128 256 (mkImage 1 1 [[129]])) 0 0
    ≠ spec_output_round 128 256 129.
Proof. by vm_compute. Qed.

(** C1, amended: for every sample [input] of the source at a valid
    coordinate, every [width] that is an [int] and every [center] within
    [2 ^ 18] of the sample (so that line 79 converts a value in the range of
    [int]), the output sample at that coordinate is
    [clamp(trunc(slope * (input - center) + 127), 0, 255)] with
    [slope = 255.0 / max(1, width)], the arithmetic being binary64 and
    [trunc] dropping the fraction (no rounding to nearest). *)
Theorem C1_sample_truncated (img : QImage) (center width : Z) (x y : nat) (input : Z) :
  pixel img x y = Some input →
  (x < Z.to_nat (img_width img))%nat →
  (y < Z.to_nat (img_height img))%nat →
  Z.abs (input - center) < 2 ^ 18 →
  is_int width = true →
  pixel (window_image center width img) x y = spec_output_trunc center width input.
Proof.
  intros Hp Hx Hy Hsub Hw.
  rewrite (window_image_pixel _ _ _ _ _ _ Hp Hx Hy), window_gray_eq.
  pose proof (window_value_defined center width input Hsub Hw) as Hdef.
  destruct (int_defined_truncate _ Hdef) as (t & Ht & Hint).
  rewrite (to_int_truncate _ _ Ht Hint).
  unfold spec_output_trunc. revert Ht.
  unfold window_value, window_slope, int_sub.
  rewrite wrap_int_id, qMax_max by (apply is_int_spec; lia). by intros ->.
Qed.

Lemma C1_sample_truncated_witness :
  pixel (mkImage 1 1 [[129]]) 0 0 = Some 129 ∧
  (0 < Z.to_nat 1)%nat ∧
  (0 < Z.to_nat 1)%nat ∧
  Z.abs (129 - 128) < 2 ^ 18 ∧
  is_int 256 = true ∧
  pixel (window_image 128 256 (mkImage 1 1 [[129]])) 0 0
    = spec_output_trunc 128 256 129.
Proof.
  split; [reflexivity|]. split; [simpl; lia|]. split; [simpl; lia|].
  split; [reflexivity|]. split; [reflexivity|].
  apply (C1_sample_truncated (mkImage 1 1 [[129]]) 128 256 0 0 129).
  - reflexivity.
  - simpl; lia.
  - simpl; lia.
  - reflexivity.
  - reflexivity.
Defined.

(** C5: a width below 1 is replaced by 1 before the slope is computed
    ([qMax(1, windowWidth)]), so the divisor is never zero or negative and
    the slope is 255; every output sample is a byte, the conversion to
    [int] is defined for every sample within [2 ^ 18] of the center, and the
    result is the one for width 1. Nothing is rejected: the transform is a
    total function. *)
Theorem C5_width_clamped (center width : Z) (img : QImage) :
  width < 1 →
  qMax 1 width = 1 ∧
  window_slope width = of_int 255 ∧
  (∀ gray, window_gray center width gray = window_gray center 1 gray ∧
           0 <= window_gray center width gray <= 255) ∧
  (∀ gray, Z.abs (gray - center) < 2 ^ 18 →
           int_defined (window_value center width gray) = true) ∧
  window_image center width img = window_image center 1 img.
Proof.
  intros Hw.
  assert (Hq : qMax 1 width = 1) by (rewrite qMax_max; lia).
  assert (Hs : window_slope width = window_slope 1)
    by (unfold window_slope; by rewrite Hq).
  assert (Hg : ∀ gray, window_gray center width gray = window_gray center 1 gray)
    by (intros; unfold window_gray; by rewrite Hs).
  split; [done|]. split; [by rewrite Hs; vm_compute|].
  split; [intros gray; split; [apply Hg | apply window_gray_range]|].
  split.
  { intros gray Hd. unfold window_value. rewrite Hs.
    by apply (window_value_defined center 1 gray). }
  unfold window_image. f_equal.
  apply foldl_ext_eq. intros bits y.
  unfold window_y. destruct (bits !! y) as [line|]; [|done]. f_equal.
  unfold window_line. apply foldl_ext_eq. intros l x.
  unfold window_x. destruct (l !! x); [|done]. by rewrite Hg.
Qed.

Lemma C5_width_clamped_witness :
  0 < 1 ∧
  qMax 1 0 = 1 ∧
  window_slope 0 = of_int 255 ∧
  window_image 128 0 (mkImage 2 1 [[100; 200]])
    = window_image 128 1 (mkImage 2 1 [[100; 200]]).
Proof.
  split; [lia|].
  destruct (C5_width_clamped 128 0 (mkImage 2 1 [[100; 200]]))
    as (Hq & Hs & _ & _ & Hi); [lia|].
  split; [exact Hq|]. split; [exact Hs|exact Hi].
Defined.

(** ** The widget *)

Section WidgetProperties.
Context {V : Type} `{!QGraphicsView V}.
Implicit Types w : DicomImageWidget V.

Lemma adjustWindowLevel_loaded w (center width : Z) :
  loaded w →
  adjustWindowLevel center width w
  = mkWidget (view w) (Some (window_image center width (currentPixmap w)))
      (currentPixmap w) (scaleFactor w) center width (isDragging w) (lastPanPoint w).
Proof.
  intros [[p Hp] Hnull]. unfold adjustWindowLevel, applyWindowLevel. simpl.
  by rewrite Hp, Hnull.
Qed.

Lemma adjustWindowLevel_empty w (center width : Z) :
  pixmapItem w = None ∨ isNull (currentPixmap w) = true →
  adjustWindowLevel center width w
  = mkWidget (view w) (pixmapItem w) (currentPixmap w) (scaleFactor w)
      center width (isDragging w) (lastPanPoint w).
Proof.
  intros Hempty. unfold adjustWindowLevel, applyWindowLevel. simpl.
  destruct (pixmapItem w) as [p|] eqn:Hp; [|done].
  destruct Hempty as [?| ->]; done.
Qed.

(** What [adjustWindowLevel] never touches. *)
Lemma adjustWindowLevel_frame w (center width : Z) :
  view (adjustWindowLevel center width w) = view w ∧
  currentPixmap (adjustWindowLevel center width w) = currentPixmap w ∧
  scaleFactor (adjustWindowLevel center width w) = scaleFactor w ∧
  isDragging (adjustWindowLevel center width w) = isDragging w ∧
  lastPanPoint (adjustWindowLevel center width w) = lastPanPoint w.
Proof.
  unfold adjustWindowLevel, applyWindowLevel. simpl.
  destruct (pixmapItem w); [|done].
  by destruct (isNull (currentPixmap w)).
Qed.

Lemma adjustWindowLevel_keeps_loaded w (center width : Z) :
  loaded w → loaded (adjustWindowLevel center width w).
Proof.
  intros Hl. rewrite (adjustWindowLevel_loaded _ _ _ Hl).
  destruct Hl as [_ Hnull]. split; simpl; eauto.
Qed.

Lemma adjust_many_loaded w (settings : list (Z * Z)) :
  loaded w →
  loaded (adjust_many w settings) ∧
  currentPixmap (adjust_many w settings) = currentPixmap w.
Proof.
  unfold adjust_many. revert w.
  induction settings as [|[c wd] settings IH]; intros w Hl; simpl; [done|].
  destruct (IH (adjustWindowLevel c wd w)) as [Hl' Hcur].
  { by apply adjustWindowLevel_keeps_loaded. }
  split; [done|]. rewrite Hcur. apply adjustWindowLevel_frame.
Qed.

(** What a view operation never touches. *)
Lemma view_op_frame w (op : ViewOp) :
  windowCenter (view_op w op) = windowCenter w ∧
  windowWidth (view_op w op) = windowWidth w ∧
  pixmapItem (view_op w op) = pixmapItem w ∧
  currentPixmap (view_op w op) = currentPixmap w.
Proof.
  destruct op as [| | |dy|e|e|e]; simpl;
    unfold wheelEvent, mousePressEvent, mouseMoveEvent, mouseReleaseEvent;
    repeat case_match; done.
Qed.

Lemma view_ops_frame w (ops : list ViewOp) :
  windowCenter (view_ops w ops) = windowCenter w ∧
  windowWidth (view_ops w ops) = windowWidth w ∧
  pixmapItem (view_ops w ops) = pixmapItem w ∧
  currentPixmap (view_ops w ops) = currentPixmap w.
Proof.
  unfold view_ops. revert w.
  induction ops as [|op ops IH]; intros w; simpl; [done|].
  destruct (IH (view_op w op)) as (-> & -> & -> & ->).
  apply view_op_frame.
Qed.

(** C2: once an image is loaded, what is displayed after
    [adjustWindowLevel(center, width)] is the transform of the stored
    source [currentPixmap] with these parameters, whatever settings were
    applied before; the source is the one that was loaded; and applying the
    same parameters again, any number of times, changes nothing. *)
Theorem C2_display_from_source w (settings : list (Z * Z)) (center width : Z) (n : nat) :
  loaded w →
  pixmapItem (adjustWindowLevel center width (adjust_many w settings))
    = Some (window_image center width (currentPixmap w)) ∧
  currentPixmap (adjustWindowLevel center width (adjust_many w settings))
    = currentPixmap w ∧
  Nat.iter n (adjustWindowLevel center width)
      (adjustWindowLevel center width (adjust_many w settings))
    = adjustWindowLevel center width (adjust_many w settings).
Proof.
  intros Hl. destruct (adjust_many_loaded w settings Hl) as [Hl' Hcur].
  set (w' := adjust_many w settings) in *.
  split; [|split].
  - rewrite (adjustWindowLevel_loaded _ _ _ Hl'). simpl. by rewrite Hcur.
  - rewrite <- Hcur. apply adjustWindowLevel_frame.
  - induction n as [|n IH]; simpl; [done|]. rewrite IH.
    rewrite (adjustWindowLevel_loaded _ center width
               (adjustWindowLevel_keeps_loaded _ center width Hl')).
    by rewrite (adjustWindowLevel_loaded _ _ _ Hl').
Qed.

(** C6: window/level and the view are independent. [adjustWindowLevel]
    leaves the view (matrix and scroll bars), [scaleFactor] and the pan
    state as they were; zooming, resetting the zoom, the wheel and the
    mouse leave [windowCenter], [windowWidth], the source and the displayed
    pixmap as they were, and so what a later [adjustWindowLevel] displays. *)
Theorem C6_view_and_contrast_independent w :
  (∀ center width,
     view (adjustWindowLevel center width w) = view w ∧
     scaleFactor (adjustWindowLevel center width w) = scaleFactor w ∧
     isDragging (adjustWindowLevel center width w) = isDragging w ∧
     lastPanPoint (adjustWindowLevel center width w) = lastPanPoint w) ∧
  (∀ ops,
     windowCenter (view_ops w ops) = windowCenter w ∧
     windowWidth (view_ops w ops) = windowWidth w ∧
     pixmapItem (view_ops w ops) = pixmapItem w ∧
     currentPixmap (view_ops w ops) = currentPixmap w ∧
     ∀ center width,
       pixmapItem (adjustWindowLevel center width (view_ops w ops))
       = pixmapItem (adjustWindowLevel center width w)).
Proof.
  split.
  - intros center width.
    destruct (adjustWindowLevel_frame w center width) as (? & ? & ? & ? & ?).
    done.
  - intros ops. destruct (view_ops_frame w ops) as (Hc & Hw & Hi & Hp).
    repeat split; try done.
    intros center width. unfold adjustWindowLevel, applyWindowLevel. simpl.
    rewrite Hi, Hp. repeat case_match; done.
Qed.

(** C9: [adjustWindowLevel] leaves the stored source [currentPixmap] as it
    was, and what it displays for a loaded image has the source's width
    and height, as many scan lines, and scan lines of the same lengths. *)
Theorem C9_source_untouched w (center width : Z) :
  loaded w →
  currentPixmap (adjustWindowLevel center width w) = currentPixmap w ∧
  ∃ out,
    pixmapItem (adjustWindowLevel center width w) = Some out ∧
    img_width out = img_width (currentPixmap w) ∧
    img_height out = img_height (currentPixmap w) ∧
    length (img_bits out) = length (img_bits (currentPixmap w)) ∧
    ∀ y line, img_bits (currentPixmap w) !! y = Some line →
      ∃ line', img_bits out !! y = Some line' ∧ length line' = length line.
Proof.
  intros Hl. split; [apply adjustWindowLevel_frame|].
  rewrite (adjustWindowLevel_loaded _ _ _ Hl). simpl.
  eexists; split; [done|]. split; [done|]. split; [done|].
  rewrite window_image_turn. split; [apply foldl_turn_length|].
  intros y line Hline. rewrite foldl_turn.
  assert (y < length (img_bits (currentPixmap w)))%nat
    by (by eapply lookup_lt_Some).
  destruct (decide (y < Z.to_nat (img_height (currentPixmap w)))%nat).
  - rewrite lookup_app_l by (rewrite length_fmap, length_take; lia).
    rewrite list_lookup_fmap, lookup_take_lt, Hline by lia. simpl.
    eexists; split; [done|]. apply window_line_length.
  - rewrite lookup_app_r by (rewrite length_fmap, length_take; lia).
    rewrite length_fmap, length_take, lookup_drop.
    replace (_ + _)%nat with y by lia. eauto.
Qed.

(** C10, amended: with no image loaded, [adjustWindowLevel(center, width)]
    stores the two values and changes nothing else (no sample is
    processed, nothing is displayed). Loading an image afterwards displays
    the pixmap as it is and keeps the stored values; the next
    [adjustWindowLevel(center', width')] replaces them by its own
    arguments before it transforms the source, so what is then displayed
    is the transform for [center'] and [width'], and the widget is in the
    state it would be in had the earlier call not been made. *)
Theorem C10_no_image w (center width : Z) :
  pixmapItem w = None ∨ isNull (currentPixmap w) = true →
  adjustWindowLevel center width w
    = mkWidget (view w) (pixmapItem w) (currentPixmap w) (scaleFactor w)
        center width (isDragging w) (lastPanPoint w) ∧
  ∀ pixmap, isNull pixmap = false →
    pixmapItem (setDicomImage pixmap (adjustWindowLevel center width w))
      = Some pixmap ∧
    windowCenter (setDicomImage pixmap (adjustWindowLevel center width w))
      = center ∧
    windowWidth (setDicomImage pixmap (adjustWindowLevel center width w))
      = width ∧
    ∀ center' width',
      pixmapItem (adjustWindowLevel center' width'
                    (setDicomImage pixmap (adjustWindowLevel center width w)))
        = Some (window_image center' width' pixmap) ∧
      windowCenter (adjustWindowLevel center' width'
                      (setDicomImage pixmap (adjustWindowLevel center width w)))
        = center' ∧
      windowWidth (adjustWindowLevel center' width'
                     (setDicomImage pixmap (adjustWindowLevel center width w)))
        = width' ∧
      adjustWindowLevel center' width'
        (setDicomImage pixmap (adjustWindowLevel center width w))
        = adjustWindowLevel center' width' (setDicomImage pixmap w).
Proof.
  intros Hempty. rewrite (adjustWindowLevel_empty _ _ _ Hempty).
  split; [done|]. intros pixmap Hnull.
  split; [done|]. split; [done|]. split; [done|].
  intros center' width'.
  rewrite !adjustWindowLevel_loaded; [done| |]; split; simpl; eauto.
Qed.

End WidgetProperties.

(** *** Concrete runs of the widget *)

Lemma C2_display_from_source_witness :
  loaded (setDicomImage (mkImage 2 1 [[100; 200]]) (newWidget (V := list ViewCall))) ∧
  pixmapItem (adjustWindowLevel 128 256
                (adjust_many (setDicomImage (mkImage 2 1 [[100; 200]]) newWidget)
                   [(40, 80); (128, 1)]))
    = Some (mkImage 2 1 [[99; 198]]).
Proof.
  assert (Hl : loaded (setDicomImage (mkImage 2 1 [[100; 200]])
                         (newWidget (V := list ViewCall))))
    by (split; [by eexists | reflexivity]).
  split; [exact Hl|].
  exact (proj1 (C2_display_from_source _ [(40, 80); (128, 1)] 128 256 1 Hl)).
Defined.

(** The scale factor kept by the widget: from 1 a zoom in and a zoom out
    give 1 again; after five zooms out they give the next binary64 number
    instead of the one they started from ([0.8] is not a binary64 number). *)
Example zoom_in_out_from_one :
  scaleFactor (zoomOut (zoomIn (newWidget (V := list ViewCall)))) = of_int 1.
Proof. by vm_compute. Qed.

Example zoom_in_out_after_five_out :
  scaleFactor (Nat.iter 5 zoomOut (newWidget (V := list ViewCall)))
    = S754_finite false 5902958103587059 (-54) ∧
  scaleFactor (zoomOut (zoomIn (Nat.iter 5 zoomOut (newWidget (V := list ViewCall)))))
    = S754_finite false 5902958103587060 (-54).
Proof. by vm_compute. Qed.

Lemma C9_source_untouched_witness :
  loaded (setDicomImage (mkImage 2 1 [[100; 200]]) (newWidget (V := list ViewCall))) ∧
  currentPixmap (adjustWindowLevel 128 1
                   (setDicomImage (mkImage 2 1 [[100; 200]])
                      (newWidget (V := list ViewCall))))
    = mkImage 2 1 [[100; 200]].
Proof.
  assert (Hl : loaded (setDicomImage (mkImage 2 1 [[100; 200]])
                         (newWidget (V := list ViewCall))))
    by (split; [by eexists | reflexivity]).
  split; [exact Hl|].
  exact (proj1 (C9_source_untouched _ 128 1 Hl)).
Defined.

(** C10, as stated, fails in its last part: the values stored while no
    image was loaded (center 0, width 1, for which the sample 129 would
    become 255) never take effect. After the load the pixmap is shown as it
    is, and the next call, [adjustWindowLevel(128, 256)], displays the
    transform for its own arguments (127) and leaves the widget as if the
    earlier call had not been made. *)
Lemma C10_stored_counterexample :
  pixmapItem (setDicomImage (mkImage 1 1 [[129]])
                (adjustWindowLevel 0 1 (newWidget (V := list ViewCall))))
    = Some (mkImage 1 1 [[129]]) ∧
  pixmapItem (adjustWindowLevel 128 256
                (setDicomImage (mkImage 1 1 [[129]])
                   (adjustWindowLevel 0 1 (newWidget (V := list ViewCall)))))
    = Some (mkImage 1 1 [[127]]) ∧
  window_image 0 1 (mkImage 1 1 [[129]]) = mkImage 1 1 [[255]] ∧
  pixmapItem (adjustWindowLevel 128 256
                (setDicomImage (mkImage 1 1 [[129]])
                   (adjustWindowLevel 0 1 (newWidget (V := list ViewCall)))))
    ≠ Some (window_image 0 1 (mkImage 1 1 [[129]])) ∧
  adjustWindowLevel 128 256
    (setDicomImage (mkImage 1 1 [[129]])
       (adjustWindowLevel 0 1 (newWidget (V := list ViewCall))))
    = adjustWindowLevel 128 256
        (setDicomImage (mkImage 1 1 [[129]]) (newWidget (V := list ViewCall))).
Proof. by vm_compute. Qed.

Lemma C10_no_image_witness :
  (pixmapItem (newWidget (V := list ViewCall)) = None
   ∨ isNull (currentPixmap (newWidget (V := list ViewCall))) = true) ∧
  adjustWindowLevel 40 80 (newWidget (V := list ViewCall))
    = mkWidget [] None null_pixmap (of_int 1) 40 80 false (mkPoint 0 0).
Proof.
  split; [left; reflexivity|].
  exact (proj1 (C10_no_image (newWidget (V := list ViewCall)) 40 80
                  (or_introl eq_refl))).
Defined.

(** ** The window *)

Section WindowProperties.
Context {V : Type} `{!QGraphicsView V}.
Implicit Types w : DicomViewerWindow V.

(** A load that succeeds hands the decoded pixmap to the widget. *)
Lemma loadDicomFile_ok (env : Env) (path : string) w :
  load_fails env path = false →
  imageWidget (loadDicomFile env path w)
  = setDicomImage (decoded env path) (imageWidget w).
Proof.
  unfold load_fails, decoded, loadDicomFile. intros Hok.
  destruct (DCMTK_AVAILABLE env).
  - destruct (dcmtk_read env path); done.
  - by rewrite Hok.
Qed.

(** A load that fails leaves everything but the status text and the
    progress bar. *)
Lemma loadDicomFile_fails (env : Env) (path : string) w :
  load_fails env path = true →
  ∃ msg, msg ∈ load_errors ∧
    loadDicomFile env path w
    = set_progressBarVisible false (set_statusLabel msg w).
Proof.
  unfold load_fails, loadDicomFile, load_errors. intros Hfail.
  destruct (DCMTK_AVAILABLE env).
  - destruct (dcmtk_read env path); [| | |done];
      eexists; (split; [|reflexivity]); set_solver.
  - rewrite Hfail. eexists; (split; [|reflexivity]); set_solver.
Qed.

Lemma openDicomFile_named (env : Env) (fn : string) w :
  fn ≠ "" → openDicomFile env fn w = loadDicomFile env fn w.
Proof.
  intros Hfn. unfold openDicomFile.
  apply String.eqb_neq in Hfn. by rewrite Hfn.
Qed.

Lemma onReplyFinished_widget (id : nat) (r : NetworkReply) w :
  imageWidget (onReplyFinished id r w) = imageWidget w.
Proof.
  unfold onReplyFinished. case_bool_decide; [|done].
  destruct r as [msg|[|items|items]]; done.
Qed.

(** What a load never touches, whether it succeeds or fails. *)
Lemma loadDicomFile_frame (env : Env) (path : string) w :
  windowCenter (imageWidget (loadDicomFile env path w)) = windowCenter (imageWidget w) ∧
  windowWidth (imageWidget (loadDicomFile env path w)) = windowWidth (imageWidget w) ∧
  windowCenterSlider (loadDicomFile env path w) = windowCenterSlider w ∧
  windowWidthSlider (loadDicomFile env path w) = windowWidthSlider w ∧
  currentSeries (loadDicomFile env path w) = currentSeries w ∧
  pendingReplies (loadDicomFile env path w) = pendingReplies w.
Proof.
  unfold loadDicomFile.
  destruct (DCMTK_AVAILABLE env).
  - destruct (dcmtk_read env path); done.
  - destruct (negb (isNull (pixmap_read env path))); done.
Qed.

(** C3, amended: a newly built widget has center 128 and width 256;
    loading an image ([setDicomImage], from any state) leaves
    [windowCenter] and [windowWidth] as they are, shows the pixmap as it
    is, stores it as the source, and fits the view to it (the scene
    rectangle is set to the pixmap's and [fitInView] is called on it);
    [scaleFactor] keeps its value. [loadDicomFile] resets neither the
    widget's parameters nor the sliders. *)
Theorem C3_load_keeps_parameters (env : Env) (path : string) w
    (pixmap : QPixmap) (iw : DicomImageWidget V) :
  windowCenter (newWidget (V := V)) = 128 ∧
  windowWidth (newWidget (V := V)) = 256 ∧
  windowCenter (setDicomImage pixmap iw) = windowCenter iw ∧
  windowWidth (setDicomImage pixmap iw) = windowWidth iw ∧
  view (setDicomImage pixmap iw)
    = fitInView (rect pixmap) (setSceneRect (rect pixmap) (view iw)) ∧
  pixmapItem (setDicomImage pixmap iw) = Some pixmap ∧
  currentPixmap (setDicomImage pixmap iw) = pixmap ∧
  scaleFactor (setDicomImage pixmap iw) = scaleFactor iw ∧
  windowCenter (imageWidget (loadDicomFile env path w)) = windowCenter (imageWidget w) ∧
  windowWidth (imageWidget (loadDicomFile env path w)) = windowWidth (imageWidget w) ∧
  windowCenterSlider (loadDicomFile env path w) = windowCenterSlider w ∧
  windowWidthSlider (loadDicomFile env path w) = windowWidthSlider w.
Proof.
  destruct (loadDicomFile_frame env path w) as (? & ? & ? & ? & _).
  repeat split; done.
Qed.

(** C7: when the source of a load cannot be shown (the file does not
    decode, there is no pixel data, or the pixmap is null, that is empty or
    of zero extent), [loadDicomFile] leaves the widget (displayed image,
    source, view, parameters) and the series as they were, shows one of
    its error texts in the status label, hides the progress bar and
    returns; the same holds for the [openDicomFile] event. *)
Theorem C7_failed_load_keeps_state (env : Env) (path : string) w :
  load_fails env path = true →
  imageWidget (loadDicomFile env path w) = imageWidget w ∧
  statusLabel (loadDicomFile env path w) ∈ load_errors ∧
  progressBarVisible (loadDicomFile env path w) = false ∧
  currentSeries (loadDicomFile env path w) = currentSeries w ∧
  seriesList (loadDicomFile env path w) = seriesList w ∧
  imageWidget (handle env w (EvOpenDicomFile path)) = imageWidget w.
Proof.
  intros Hfail.
  destruct (loadDicomFile_fails env path w Hfail) as (msg & Hmsg & Heq).
  rewrite Heq. repeat split; try done.
  simpl. unfold openDicomFile. destruct (negb _); [|done]. by rewrite Heq.
Qed.

(** C4, amended: there is no generation counter or request identifier.
    Loading is synchronous, each load runs to completion inside its event,
    so after a load of [a] and then a load of a readable [b] the displayed
    image is [b]'s; the completions that do arrive later, the worklist
    replies, never change the widget; and every awaited reply is applied
    when it arrives, whatever was requested or applied since. *)
Theorem C4_loads_synchronous (env : Env) (a b : string) w :
  b ≠ "" →
  load_fails env b = false →
  pixmapItem (imageWidget (run env w [EvOpenDicomFile a; EvOpenDicomFile b]))
    = Some (decoded env b) ∧
  (∀ w' id r, imageWidget (handle env w' (EvReplyFinished id r)) = imageWidget w') ∧
  (∀ w' id items, id ∈ pendingReplies w' →
     currentSeries (handle env w' (EvReplyFinished id (ReplyData (JsonArray items))))
       = dicom_path <$> items ∧
     id ∉ pendingReplies (handle env w'
                            (EvReplyFinished id (ReplyData (JsonArray items))))).
Proof.
  intros Hb Hok. split; [|split].
  - unfold run. cbn [foldl handle].
    rewrite (openDicomFile_named _ b) by done.
    by rewrite (loadDicomFile_ok _ _ _ Hok).
  - intros w' id r. apply onReplyFinished_widget.
  - intros w' id items Hid. simpl. unfold onReplyFinished.
    rewrite bool_decide_eq_true_2 by done. simpl. split; [done|].
    intros [_ Hn]%elem_of_difference. apply Hn. by apply elem_of_singleton.
Qed.

End WindowProperties.

(** *** Concrete runs of the window *)

(** C3, as stated, fails: after [adjustWindowLevel(40, 80)], loading an
    image leaves center 40 and width 80, not the defaults 128 and 256; so
    does opening a file after the sliders were moved to 40 and 80. *)
Lemma C3_reset_counterexample :
  windowCenter (setDicomImage (mkImage 1 1 [[7]])
                  (adjustWindowLevel 40 80 (newWidget (V := list ViewCall)))) = 40 ∧
  windowWidth (setDicomImage (mkImage 1 1 [[7]])
                 (adjustWindowLevel 40 80 (newWidget (V := list ViewCall)))) = 80 ∧
  ¬ (windowCenter (setDicomImage (mkImage 1 1 [[7]])
                     (adjustWindowLevel 40 80 (newWidget (V := list ViewCall)))) = 128 ∧
     windowWidth (setDicomImage (mkImage 1 1 [[7]])
                    (adjustWindowLevel 40 80 (newWidget (V := list ViewCall)))) = 256) ∧
  windowCenter
    (imageWidget
       (run demo_env (newWindow (V := list ViewCall) demo_url "")
          [EvCenterSlider 40; EvWidthSlider 80; EvOpenDicomFile "a.png"])) = 40 ∧
  windowWidth
    (imageWidget
       (run demo_env (newWindow (V := list ViewCall) demo_url "")
          [EvCenterSlider 40; EvWidthSlider 80; EvOpenDicomFile "a.png"])) = 80.
Proof.
  split; [done|]. split; [done|]. split; [by intros [? ?]|]. by vm_compute.
Qed.

(** C4, as stated, fails: no completion is discarded as stale. The
    constructor requests the worklist (reply 0), a refresh requests it
    again (reply 1); reply 1 arrives first with Bob's entry, then reply 0
    with Ann's, and the older reply replaces the newer list. *)
Lemma C4_stale_reply_counterexample :
  currentSeries
    (run demo_env (newWindow (V := list ViewCall) demo_url "")
       [ EvRefreshWorklist;
         EvReplyFinished 1 (ReplyData (JsonArray [entryB])) ])
    = ["b.png"] ∧
  currentSeries
    (run demo_env (newWindow (V := list ViewCall) demo_url "")
       [ EvRefreshWorklist;
         EvReplyFinished 1 (ReplyData (JsonArray [entryB]));
         EvReplyFinished 0 (ReplyData (JsonArray [entryA])) ])
    = ["a.png"] ∧
  seriesList
    (run demo_env (newWindow (V := list ViewCall) demo_url "")
       [ EvRefreshWorklist;
         EvReplyFinished 1 (ReplyData (JsonArray [entryB]));
         EvReplyFinished 0 (ReplyData (JsonArray [entryA])) ])
    = ["Ann - CT"].
Proof. by vm_compute. Qed.

Lemma C4_loads_synchronous_witness :
  "b.png" ≠ "" ∧
  load_fails demo_env "b.png" = false ∧
  pixmapItem
    (imageWidget
       (run demo_env (newWindow (V := list ViewCall) demo_url "")
          [EvOpenDicomFile "a.png"; EvOpenDicomFile "b.png"]))
    = Some (mkImage 1 1 [[20]]).
Proof.
  assert (Hb : "b.png" ≠ "") by discriminate.
  split; [exact Hb|]. split; [reflexivity|].
  exact (proj1 (C4_loads_synchronous demo_env "a.png" "b.png"
                  (newWindow (V := list ViewCall) demo_url "") Hb eq_refl)).
Defined.

Lemma C7_failed_load_keeps_state_witness :
  load_fails demo_env "missing.dcm" = true ∧
  imageWidget
    (loadDicomFile demo_env "missing.dcm"
       (run demo_env (newWindow (V := list ViewCall) demo_url "")
          [EvOpenDicomFile "a.png"]))
    = imageWidget
        (run demo_env (newWindow (V := list ViewCall) demo_url "")
           [EvOpenDicomFile "a.png"]) ∧
  statusLabel
    (loadDicomFile demo_env "missing.dcm"
       (run demo_env (newWindow (V := list ViewCall) demo_url "")
          [EvOpenDicomFile "a.png"]))
    = "Error: Cannot load file".
Proof.
  split; [reflexivity|].
  split; [|reflexivity].
  exact (proj1 (C7_failed_load_keeps_state demo_env "missing.dcm"
                  (run demo_env (newWindow (V := list ViewCall) demo_url "")
                     [EvOpenDicomFile "a.png"]) eq_refl)).
Defined.

(** * Further properties *)

(** ** Exact integer arithmetic in binary64

    A mantissa whose low bits are zero is shifted without loss, so
    products and sums of converted integers below [2 ^ 53] are the
    converted products and sums. *)

(** *** Exact shifts *)

Lemma shr_1_exact (m : Z) :
  0 <= m → shr_1 (Build_shr_record (2 * m) false false) = Build_shr_record m false false.
Proof. intros Hm. destruct m as [|p|p]; simpl; [done|done|lia]. Qed.

Lemma iter_shr_exact (p : positive) (m : Z) :
  0 <= m →
  SpecFloat.iter_pos shr_1 p (Build_shr_record (m * 2 ^ Zpos p) false false)
  = Build_shr_record m false false.
Proof.
  revert m. induction p as [p IH|p IH|]; intros m Hm.
  - replace (m * 2 ^ Zpos p~1) with (2 * ((m * 2 ^ Zpos p) * 2 ^ Zpos p)).
    + assert (0 < 2 ^ Zpos p) by (apply pow2_pos; lia).
      change (SpecFloat.iter_pos shr_1 p~1 ?x)
        with (SpecFloat.iter_pos shr_1 p (SpecFloat.iter_pos shr_1 p (shr_1 x))).
      rewrite shr_1_exact, IH, IH by nia. done.
    + rewrite (Pos2Z.inj_xI p), Z.pow_add_r, Z.pow_mul_r by lia.
      replace (2 ^ 2) with 4 by done. rewrite Z.pow_1_r.
      replace (4 ^ Zpos p) with (2 ^ Zpos p * 2 ^ Zpos p); [lia|].
      rewrite <- Z.pow_mul_l. done.
  - replace (m * 2 ^ Zpos p~0) with ((m * 2 ^ Zpos p) * 2 ^ Zpos p).
    + assert (0 < 2 ^ Zpos p) by (apply pow2_pos; lia).
      change (SpecFloat.iter_pos shr_1 p~0 ?x)
        with (SpecFloat.iter_pos shr_1 p (SpecFloat.iter_pos shr_1 p x)).
      rewrite IH, IH by nia. done.
    + rewrite (Pos2Z.inj_xO p), Z.pow_mul_r by lia.
      replace (2 ^ 2) with 4 by done.
      replace (4 ^ Zpos p) with (2 ^ Zpos p * 2 ^ Zpos p); [lia|].
      rewrite <- Z.pow_mul_l. done.
  - change (SpecFloat.iter_pos shr_1 1 ?x) with (shr_1 x).
    rewrite Z.pow_1_r, Z.mul_comm. by apply shr_1_exact.
Qed.

(** A mantissa that is a 53-bit mantissa shifted left by [n] rounds to it
    exactly. *)
Lemma round_aux_exact (s : bool) (mx m : positive) (n ex : Z) :
  0 <= n → Zpos mx = Zpos m * 2 ^ n → Zpos (digits2_pos m) = 53 →
  -1074 <= ex + n <= 971 →
  binary_round_aux prec emax s (Zpos mx) ex loc_Exact = S754_finite s m (ex + n).
Proof.
  intros Hn Hmx Hd He.
  destruct n as [|p|p]; [| |lia].
  - rewrite Z.pow_0_r, Z.mul_1_r in Hmx. injection Hmx as ->.
    rewrite Z.add_0_r in *. by apply round_aux_canonical.
  - assert (Hdx : Zpos (digits2_pos mx) = 53 + Zpos p).
    { pose proof (digits2_bounds m) as Hb. rewrite Hd in Hb.
      assert (0 < 2 ^ Zpos p) by (apply pow2_pos; lia).
      apply digits2_unique. rewrite Hmx.
      replace (53 + Zpos p - 1) with (52 + Zpos p) by lia.
      rewrite !Z.pow_add_r by lia. simpl in Hb. nia. }
    unfold binary_round_aux, shr_fexp. simpl Zdigits2.
    assert (Hs : fexp prec emax (Zpos (digits2_pos mx) + ex) - ex = Zpos p)
      by (rewrite Hdx; unfold fexp, emin, prec, emax; lia).
    rewrite Hs. unfold shr. simpl shr_record_of_loc.
    rewrite Hmx, iter_shr_exact by lia. simpl.
    assert (Hs2 : fexp prec emax (Zpos (digits2_pos m) + (ex + Zpos p))
                  - (ex + Zpos p) = 0)
      by (rewrite Hd; unfold fexp, emin, prec, emax; lia).
    rewrite Hs2. simpl.
    replace (ex + Zpos p <=? emax - prec) with true
      by (symmetry; apply Z.leb_le; unfold emax, prec; lia).
    done.
Qed.

(** *** Integers as binary64 numbers *)

Lemma Zdigits2_bounds (z : Z) :
  z ≠ 0 → 2 ^ (Zdigits2 z - 1) <= Z.abs z < 2 ^ Zdigits2 z.
Proof. destruct z as [|p|p]; [done| |]; intros _; apply digits2_bounds. Qed.

Lemma Zdigits2_unique (z d : Z) :
  z ≠ 0 → 2 ^ (d - 1) <= Z.abs z < 2 ^ d → Zdigits2 z = d.
Proof. destruct z as [|p|p]; [done| |]; intros _; apply digits2_unique. Qed.

Lemma Zdigits2_abs_le (z k : Z) : z ≠ 0 → Z.abs z < 2 ^ k → Zdigits2 z <= k.
Proof. destruct z as [|p|p]; [done| |]; intros _; apply digits2_le. Qed.

Lemma Zdigits2_pos (z : Z) : z ≠ 0 → 0 < Zdigits2 z.
Proof. destruct z; [done| |]; intros _; simpl; lia. Qed.

(** A nonzero integer below [2 ^ 53] converts to the 53-bit mantissa that
    holds it exactly. *)
Lemma of_int_canonical (z : Z) :
  z ≠ 0 → Z.abs z < 2 ^ 53 →
  ∃ m, of_int z = S754_finite (z <? 0) m (Zdigits2 z - 53) ∧
       Zpos m = Z.abs z * 2 ^ (53 - Zdigits2 z) ∧
       Zpos (digits2_pos m) = 53.
Proof.
  intros Hz Hlt.
  assert (Hgen : ∀ (s : bool) (p : positive), Zpos p < 2 ^ 53 →
    ∃ m, binary_round prec emax s p 0
         = S754_finite s m (Zpos (digits2_pos p) - 53) ∧
         Zpos m = Zpos p * 2 ^ (53 - Zpos (digits2_pos p)) ∧
         Zpos (digits2_pos m) = 53).
  { intros s p Hp. unfold binary_round.
    pose proof (digits2_bounds p) as Hb.
    pose proof (digits2_le p 53 Hp) as Hd.
    set (d := Zpos (digits2_pos p)) in *.
    assert (Hf : fexp prec emax (d + 0) = d - 53)
      by (unfold fexp, emin, prec, emax; lia).
    rewrite Hf.
    destruct (shl_align_value p 0 (d - 53)) as [_ Hv].
    assert (He : (shl_align p 0 (d - 53)).2 = d - 53).
    { unfold shl_align. destruct (d - 53 - 0) eqn:?; simpl; lia. }
    rewrite He in Hv. replace (0 - (d - 53)) with (53 - d) in Hv by lia.
    destruct (shl_align p 0 (d - 53)) as [mz ez]. simpl in He, Hv. subst ez.
    assert (Hm : Zpos (digits2_pos mz) = 53).
    { apply digits2_unique. rewrite Hv.
      assert (0 < 2 ^ (53 - d)) by (apply pow2_pos; lia). split.
      - replace (53 - 1) with ((d - 1) + (53 - d)) by lia.
        rewrite Z.pow_add_r by lia. apply Z.mul_le_mono_nonneg_r; lia.
      - replace 53 with (d + (53 - d)) at 2 by lia.
        rewrite Z.pow_add_r by lia. apply Z.mul_lt_mono_pos_r; lia. }
    exists mz. split; [|done]. apply round_aux_canonical; [done|lia]. }
  destruct z as [|p|p]; [done| |]; apply Hgen; lia.
Qed.

(** The conversions of lines 78-79 round trip: [int -> double -> int]. *)
Lemma truncate_of_int (z : Z) : Z.abs z < 2 ^ 53 → truncate (of_int z) = Some z.
Proof.
  intros Hlt. destruct (decide (z = 0)) as [->|Hz]; [done|].
  destruct (of_int_canonical z Hz Hlt) as (m & -> & Hm & Hd).
  pose proof (Zdigits2_bounds z Hz) as Hb.
  pose proof (Zdigits2_abs_le z 53 Hz Hlt).
  pose proof (Zdigits2_pos z Hz).
  unfold truncate. f_equal.
  assert (Ht : match Zdigits2 z - 53 with
               | Zneg p => Z.shiftr (Zpos m) (Zpos p)
               | _ => Z.shiftl (Zpos m) (Zdigits2 z - 53)
               end = Z.abs z).
  { destruct (Zdigits2 z - 53) as [|p|p] eqn:He; [|lia|].
    - rewrite Z.shiftl_0_r, Hm. replace (53 - Zdigits2 z) with 0 by lia. lia.
    - rewrite Z.shiftr_div_pow2, Hm by lia.
      replace (53 - Zdigits2 z) with (Zpos p) by lia.
      apply Z.div_mul. apply Z.pow_nonzero; lia. }
  rewrite Ht. unfold cond_Zopp. destruct (Z.ltb_spec z 0); lia.
Qed.

Lemma to_int_of_int (z : Z) : is_int z = true → to_int (of_int z) = z.
Proof.
  intros Hz. pose proof Hz as Hz'. apply is_int_spec in Hz'.
  apply to_int_truncate; [|done]. apply truncate_of_int. lia.
Qed.

(** A float built like the conversion of [z] is the conversion of [z]. *)
Lemma of_int_intro (z : Z) (s : bool) (m : positive) (e : Z) :
  z ≠ 0 → Z.abs z < 2 ^ 53 →
  s = (z <? 0) → e = Zdigits2 z - 53 →
  Zpos m = Z.abs z * 2 ^ (53 - Zdigits2 z) →
  S754_finite s m e = of_int z.
Proof.
  intros Hz Hlt -> -> Hm.
  destruct (of_int_canonical z Hz Hlt) as (m' & -> & Hm' & _).
  f_equal. apply Pos2Z.inj. lia.
Qed.

Lemma Zdigits2_mul_ge (a b : Z) :
  a ≠ 0 → b ≠ 0 → Zdigits2 a + Zdigits2 b - 1 <= Zdigits2 (a * b).
Proof.
  intros Ha Hb.
  pose proof (Zdigits2_bounds a Ha) as [Ha1 _].
  pose proof (Zdigits2_bounds b Hb) as [Hb1 _].
  pose proof (Zdigits2_bounds (a * b) ltac:(lia)) as [_ Hab].
  pose proof (Zdigits2_pos a Ha). pose proof (Zdigits2_pos b Hb).
  pose proof (Zdigits2_pos (a * b) ltac:(lia)).
  destruct (Z.le_gt_cases (Zdigits2 a + Zdigits2 b - 1) (Zdigits2 (a * b)))
    as [|Hgt]; [done|].
  assert (2 ^ Zdigits2 (a * b) <= 2 ^ ((Zdigits2 a - 1) + (Zdigits2 b - 1)))
    by (apply Z.pow_le_mono_r; lia).
  rewrite Z.pow_add_r in * by lia.
  assert (0 < 2 ^ (Zdigits2 a - 1)) by (apply pow2_pos; lia).
  assert (0 < 2 ^ (Zdigits2 b - 1)) by (apply pow2_pos; lia).
  rewrite Z.abs_mul in Hab. nia.
Qed.

(** The product of two converted integers is the converted product, as
    long as it is below [2 ^ 53]. *)
Lemma mul_of_int (a b : Z) :
  a ≠ 0 → b ≠ 0 → Z.abs (a * b) < 2 ^ 53 →
  mul (of_int a) (of_int b) = of_int (a * b).
Proof.
  intros Ha Hb Hab.
  assert (Z.abs a < 2 ^ 53 ∧ Z.abs b < 2 ^ 53) as [Ha' Hb']
    by (rewrite Z.abs_mul in Hab; nia).
  destruct (of_int_canonical a Ha Ha') as (ma & -> & Hma & Hda).
  destruct (of_int_canonical b Hb Hb') as (mb & -> & Hmb & Hdb).
  destruct (of_int_canonical (a * b) ltac:(lia) Hab) as (mab & -> & Hmab & Hdab).
  pose proof (Zdigits2_mul_ge a b Ha Hb) as Hge.
  pose proof (Zdigits2_abs_le a 53 Ha Ha'). pose proof (Zdigits2_abs_le b 53 Hb Hb').
  pose proof (Zdigits2_abs_le (a * b) 53 ltac:(lia) Hab).
  pose proof (Zdigits2_pos (a * b) ltac:(lia)).
  set (da := Zdigits2 a) in *. set (db := Zdigits2 b) in *.
  set (dab := Zdigits2 (a * b)) in *.
  unfold mul, SFmul.
  replace (xorb (a <? 0) (b <? 0)) with (a * b <? 0)
    by (destruct (Z.ltb_spec a 0), (Z.ltb_spec b 0), (Z.ltb_spec (a * b) 0);
        simpl; try done; nia).
  replace (dab - 53) with ((da - 53 + (db - 53)) + (53 - da - db + dab)) by lia.
  apply round_aux_exact; [lia| |done|lia].
  rewrite Pos2Z.inj_mul, Hma, Hmb, Hmab, Z.abs_mul.
  replace (Z.abs a * 2 ^ (53 - da) * (Z.abs b * 2 ^ (53 - db)))
    with (Z.abs a * Z.abs b * (2 ^ (53 - da) * 2 ^ (53 - db))) by lia.
  rewrite <- (Z.mul_assoc _ (2 ^ (53 - dab))). f_equal.
  rewrite <- !Z.pow_add_r by lia. f_equal. lia.
Qed.

(** The same when one of the factors is zero and the other positive. *)
Lemma mul_of_int_pos_l (a b : Z) :
  0 < a < 2 ^ 53 → Z.abs (a * b) < 2 ^ 53 →
  mul (of_int a) (of_int b) = of_int (a * b).
Proof.
  intros Ha Hab. destruct (decide (b = 0)) as [->|Hb].
  - rewrite Z.mul_0_r.
    destruct (of_int_canonical a ltac:(lia) ltac:(lia)) as (ma & -> & _).
    replace (a <? 0) with false by (symmetry; apply Z.ltb_ge; lia). done.
  - apply mul_of_int; lia.
Qed.

(** The sum of two converted integers is the converted sum. *)
Lemma add_of_int (a b : Z) :
  Z.abs a < 2 ^ 53 → Z.abs b < 2 ^ 53 → Z.abs (a + b) < 2 ^ 53 →
  add (of_int a) (of_int b) = of_int (a + b).
Proof.
  intros Ha' Hb' Hab.
  destruct (decide (a = 0)) as [->|Ha].
  { rewrite Z.add_0_l. destruct (decide (b = 0)) as [->|Hb]; [done|].
    by destruct (of_int_canonical b Hb Hb') as (mb & -> & _). }
  destruct (decide (b = 0)) as [->|Hb].
  { rewrite Z.add_0_r. by destruct (of_int_canonical a Ha Ha') as (ma & -> & _). }
  destruct (of_int_canonical a Ha Ha') as (ma & -> & Hma & Hda).
  destruct (of_int_canonical b Hb Hb') as (mb & -> & Hmb & Hdb).
  pose proof (Zdigits2_abs_le a 53 Ha Ha'). pose proof (Zdigits2_abs_le b 53 Hb Hb').
  pose proof (Zdigits2_pos a Ha). pose proof (Zdigits2_pos b Hb).
  set (da := Zdigits2 a) in *. set (db := Zdigits2 b) in *.
  unfold add, SFadd.
  set (ez := Z.min (da - 53) (db - 53)).
  destruct (shl_align_value ma (da - 53) ez) as [_ Hva].
  destruct (shl_align_value mb (db - 53) ez) as [_ Hvb].
  assert (Hea : (shl_align ma (da - 53) ez).2 = ez).
  { unfold shl_align. destruct (ez - (da - 53)) eqn:?; simpl; lia. }
  assert (Heb : (shl_align mb (db - 53) ez).2 = ez).
  { unfold shl_align. destruct (ez - (db - 53)) eqn:?; simpl; lia. }
  rewrite Hea in Hva. rewrite Heb in Hvb.
  assert (Hsa : cond_Zopp (a <? 0) (Zpos (shl_align ma (da - 53) ez).1)
                = a * 2 ^ (- ez)).
  { rewrite Hva, Hma, <- Z.mul_assoc, <- Z.pow_add_r by lia.
    replace (53 - da + (da - 53 - ez)) with (- ez) by lia.
    unfold cond_Zopp. destruct (Z.ltb_spec a 0); lia. }
  assert (Hsb : cond_Zopp (b <? 0) (Zpos (shl_align mb (db - 53) ez).1)
                = b * 2 ^ (- ez)).
  { rewrite Hvb, Hmb, <- Z.mul_assoc, <- Z.pow_add_r by lia.
    replace (53 - db + (db - 53 - ez)) with (- ez) by lia.
    unfold cond_Zopp. destruct (Z.ltb_spec b 0); lia. }
  rewrite Hsa, Hsb, <- Z.mul_add_distr_r.
  assert (Hp : 0 < 2 ^ (- ez)) by (apply pow2_pos; lia).
  destruct (decide (a + b = 0)) as [Hz|Hz]; [by rewrite Hz|].
  destruct (of_int_canonical (a + b) Hz Hab) as (mab & -> & Hmab & Hdab).
  pose proof (Zdigits2_abs_le (a + b) 53 Hz Hab).
  pose proof (Zdigits2_pos (a + b) Hz).
  set (dab := Zdigits2 (a + b)) in *.
  assert (Hround : ∀ (s : bool) (M : positive),
            Zpos M = Z.abs (a + b) * 2 ^ (- ez) →
            binary_round prec emax s M ez = S754_finite s mab (dab - 53)).
  { intros s M HM. unfold binary_round.
    assert (HdM : Zpos (digits2_pos M) = dab - ez).
    { apply digits2_unique. rewrite HM.
      pose proof (Zdigits2_bounds (a + b) Hz) as Hb2. fold dab in Hb2.
      replace (dab - ez - 1) with ((dab - 1) + (- ez)) by lia.
      replace (dab - ez) with (dab + (- ez)) by lia.
      rewrite !Z.pow_add_r by lia. nia. }
    rewrite HdM.
    assert (Hf : fexp prec emax (dab - ez + ez) = dab - 53)
      by (unfold fexp, emin, prec, emax; lia).
    rewrite Hf.
    destruct (shl_align_value M ez (dab - 53)) as [Hle Hv].
    assert (He' : (shl_align M ez (dab - 53)).2 = Z.min ez (dab - 53)).
    { unfold shl_align. destruct (dab - 53 - ez) eqn:?; simpl; lia. }
    rewrite He' in Hv.
    destruct (shl_align M ez (dab - 53)) as [mz ez']. simpl in He', Hv. subst ez'.
    replace (dab - 53) with (Z.min ez (dab - 53) + (dab - 53 - Z.min ez (dab - 53)))
      at 2 by lia.
    apply round_aux_exact; [lia| |done|lia].
    rewrite Hv, HM, Hmab, <- !Z.mul_assoc, <- !Z.pow_add_r by lia.
    f_equal. f_equal. lia. }
  destruct ((a + b) * 2 ^ (- ez)) as [|M|M] eqn:HS; [nia| |]; simpl.
  - replace (a + b <? 0) with false by (symmetry; apply Z.ltb_ge; nia).
    apply Hround. nia.
  - replace (a + b <? 0) with true by (symmetry; apply Z.ltb_lt; nia).
    apply Hround. nia.
Qed.

(** *** Widths that divide 255 *)

Lemma divisors_of_255 (w : Z) :
  0 < w → 255 mod w = 0 → w ∈ [1; 3; 5; 15; 17; 51; 85; 255].
Proof.
  intros Hw Hmod.
  assert (w <= 255).
  { apply Z.divide_pos_le; [lia|]. apply Z.mod_divide; [lia|done]. }
  assert (Hall : Forall (λ w, 255 mod w = 0 → w ∈ [1; 3; 5; 15; 17; 51; 85; 255])
                   (seqZ 1 255)) by compute_done.
  rewrite Forall_forall in Hall. apply Hall; [|done].
  apply elem_of_seqZ. lia.
Qed.

Lemma window_slope_divisor (w : Z) :
  0 < w → 255 mod w = 0 → window_slope w = of_int (255 / w).
Proof.
  intros Hw Hmod. pose proof (divisors_of_255 w Hw Hmod) as Hin.
  repeat (apply elem_of_cons in Hin as [->|Hin]); try by vm_compute.
  by apply elem_of_nil in Hin.
Qed.

Lemma window_gray_integer_slope (center width k gray : Z) :
  window_slope width = of_int k → 0 < k <= 255 →
  Z.abs (gray - center) < 2 ^ 18 →
  window_gray center width gray = clamp (k * (gray - center) + 127) 0 255.
Proof.
  intros Hs Hk Hd. rewrite window_gray_eq. f_equal.
  unfold window_value, int_sub. rewrite Hs.
  rewrite wrap_int_id by (apply is_int_spec; lia).
  assert (Z.abs (k * (gray - center)) < 2 ^ 26)
    by (rewrite Z.abs_mul; change (2 ^ 26) with (2 ^ 8 * 2 ^ 18);
        apply Z.mul_lt_mono_nonneg; lia).
  rewrite mul_of_int_pos_l, add_of_int by lia.
  apply to_int_of_int, is_int_spec. lia.
Qed.

(** ** The transform on whole images *)

(** X1: a sample equal to the center becomes 127 (mid gray), for every
    center and every width that is an [int]. *)
Theorem X1_center_maps_to_127 (img : QImage) (center width : Z) (x y : nat) :
  pixel img x y = Some center →
  (x < Z.to_nat (img_width img))%nat →
  (y < Z.to_nat (img_height img))%nat →
  is_int width = true →
  pixel (window_image center width img) x y = Some 127.
Proof.
  intros Hp Hx Hy Hw.
  rewrite (window_image_pixel _ _ _ _ _ _ Hp Hx Hy).
  by rewrite window_gray_center.
Qed.

Lemma X1_center_maps_to_127_witness :
  pixel (mkImage 2 1 [[10; 200]]) 1 0 = Some 200 ∧
  (1 < Z.to_nat 2)%nat ∧ (0 < Z.to_nat 1)%nat ∧
  is_int 400 = true ∧
  pixel (window_image 200 400 (mkImage 2 1 [[10; 200]])) 1 0 = Some 127.
Proof.
  split; [reflexivity|]. split; [simpl; lia|]. split; [simpl; lia|].
  split; [reflexivity|].
  apply (X1_center_maps_to_127 (mkImage 2 1 [[10; 200]]) 200 400 1 0).
  - reflexivity.
  - simpl; lia.
  - simpl; lia.
  - reflexivity.
Defined.

(** X2: the conversions of lines 78-79 round trip: an [int] converted to
    [double] and back to [int] is itself, and the conversion back is
    defined. *)
Theorem X2_int_double_int (z : Z) :
  is_int z = true → to_int (of_int z) = z ∧ int_defined (of_int z) = true.
Proof.
  intros Hz. split; [by apply to_int_of_int|].
  pose proof Hz as Hz'. apply is_int_spec in Hz'.
  unfold int_defined. by rewrite truncate_of_int by lia.
Qed.

Lemma X2_int_double_int_witness :
  is_int (-3000) = true ∧ to_int (of_int (-3000)) = -3000.
Proof.
  split; [reflexivity|]. exact (proj1 (X2_int_double_int (-3000) eq_refl)).
Defined.

(** X3: for a width that divides 255 the slope is the integer
    [255 / width] and nothing is rounded: the output is
    [clamp((255 / width) * (gray - center) + 127, 0, 255)] in integer
    arithmetic, for every sample within [2 ^ 18] of the center. *)
Theorem X3_divisor_width_exact (center width gray : Z) :
  0 < width → 255 mod width = 0 →
  Z.abs (gray - center) < 2 ^ 18 →
  window_slope width = of_int (255 / width) ∧
  window_gray center width gray
    = clamp (255 / width * (gray - center) + 127) 0 255.
Proof.
  intros Hw Hmod Hd.
  pose proof (window_slope_divisor width Hw Hmod) as Hs.
  split; [done|]. apply window_gray_integer_slope; [done| |done].
  pose proof (divisors_of_255 width Hw Hmod) as Hin.
  repeat (apply elem_of_cons in Hin as [->|Hin]); try (by vm_compute).
  by apply elem_of_nil in Hin.
Qed.

Lemma X3_divisor_width_exact_witness :
  0 < 51 ∧ 255 mod 51 = 0 ∧ Z.abs (100 - 90) < 2 ^ 18 ∧
  window_gray 90 51 100 = 177.
Proof.
  split; [lia|]. split; [reflexivity|]. split; [reflexivity|].
  exact (proj2 (X3_divisor_width_exact 90 51 100 ltac:(lia) eq_refl eq_refl)).
Defined.

(** X4: with a width of 1 or less the transform is a threshold at the
    center: 0 below it, 127 at it, 255 above it. *)
Theorem X4_width_one_threshold (center width gray : Z) :
  width <= 1 →
  Z.abs (gray - center) < 2 ^ 18 →
  window_gray center width gray
    = if gray <? center then 0 else if gray =? center then 127 else 255.
Proof.
  intros Hw Hd.
  assert (Hs : window_slope width = of_int 255).
  { unfold window_slope. rewrite qMax_max.
    replace (Z.max 1 width) with 1 by lia. by vm_compute. }
  rewrite (window_gray_integer_slope center width 255 gray Hs) by (done || lia).
  unfold clamp.
  destruct (Z.ltb_spec gray center); [lia|].
  destruct (Z.eqb_spec gray center); lia.
Qed.

Lemma X4_width_one_threshold_witness :
  0 <= 1 ∧ Z.abs (130 - 128) < 2 ^ 18 ∧ window_gray 128 0 130 = 255.
Proof.
  split; [lia|]. split; [reflexivity|].
  exact (X4_width_one_threshold 128 0 130 ltac:(lia) eq_refl).
Defined.

(** X5: center 127 with width 255 is the neutral setting: it reproduces
    every well formed image. *)
Theorem X5_neutral_setting (img : QImage) :
  well_formed img → window_image 127 255 img = img.
Proof.
  intros Hwf. pose proof (window_image_map 127 255 img Hwf) as Hmap.
  destruct img as [w h bits]. destruct Hwf as [_ Hrows].
  unfold window_image in *. simpl in *. f_equal. rewrite Hmap.
  rewrite <- (list_fmap_id bits) at 2.
  apply Forall_fmap_ext_1. eapply Forall_impl; [exact Hrows|].
  intros line [_ Hbytes]. simpl.
  rewrite <- (list_fmap_id line) at 2.
  apply Forall_fmap_ext_1. eapply Forall_impl; [exact Hbytes|].
  intros g Hg. simpl in *. unfold id.
  rewrite (window_gray_integer_slope 127 255 1 g); [| by vm_compute | lia |].
  - unfold clamp. lia.
  - change (2 ^ 18) with 262144. lia.
Qed.

Lemma X5_neutral_setting_witness :
  well_formed (mkImage 2 2 [[0; 36]; [129; 255]]) ∧
  window_image 127 255 (mkImage 2 2 [[0; 36]; [129; 255]])
    = mkImage 2 2 [[0; 36]; [129; 255]].
Proof.
  assert (Hwf : well_formed (mkImage 2 2 [[0; 36]; [129; 255]])).
  { split; [reflexivity|].
    repeat (first [apply List.Forall_nil | apply List.Forall_cons | split]);
      try reflexivity; simpl; lia. }
  split; [exact Hwf|]. exact (X5_neutral_setting _ Hwf).
Defined.

(** X6: the parameters a new widget starts with, center 128 and width
    256, are not neutral: applied to an 8-bit sample they give 0 for 0,
    one level less up to 128, and two levels less above. *)
Theorem X6_default_window_darkens (gray : Z) :
  0 <= gray <= 255 →
  window_gray 128 256 gray
    = if gray =? 0 then 0 else if gray <=? 128 then gray - 1 else gray - 2.
Proof.
  intros Hg.
  assert (Hall : Forall (λ g, window_gray 128 256 g
                   = if g =? 0 then 0 else if g <=? 128 then g - 1 else g - 2)
                   (seqZ 0 256)) by compute_done.
  rewrite Forall_forall in Hall. apply Hall, elem_of_seqZ. lia.
Qed.

Lemma X6_default_window_darkens_witness :
  0 <= 200 <= 255 ∧ window_gray 128 256 200 = 198.
Proof.
  split; [lia|]. exact (X6_default_window_darkens 200 ltac:(lia)).
Defined.

(** X7: the transform of a well formed image is well formed (same
    extent, full scan lines, byte samples), and it is the per-sample
    transform applied to every sample. *)
Theorem X7_window_image_well_formed (center width : Z) (img : QImage) :
  well_formed img →
  well_formed (window_image center width img) ∧
  img_bits (window_image center width img)
    = (λ line : list Z, window_gray center width <$> line) <$> img_bits img.
Proof.
  intros Hwf. pose proof (window_image_map center width img Hwf) as Hmap.
  split; [|done]. destruct Hwf as [Hh Hrows]. split.
  - rewrite Hmap, length_fmap. done.
  - rewrite Hmap. apply Forall_fmap. eapply Forall_impl; [exact Hrows|].
    intros line [Hlen _]. simpl. split.
    + by rewrite length_fmap.
    + apply Forall_fmap, Forall_forall. intros g _. simpl.
      pose proof (window_gray_range center width g). lia.
Qed.

Lemma X7_window_image_well_formed_witness :
  well_formed (mkImage 1 1 [[129]]) ∧
  well_formed (window_image 128 256 (mkImage 1 1 [[129]])).
Proof.
  assert (Hwf : well_formed (mkImage 1 1 [[129]])).
  { split; [reflexivity|].
    repeat (first [apply List.Forall_nil | apply List.Forall_cons | split]);
      try reflexivity; simpl; lia. }
  split; [exact Hwf|]. exact (proj1 (X7_window_image_well_formed 128 256 _ Hwf)).
Defined.

(** ** States the window can be in *)

Lemma window_image_null (center width : Z) (img : QImage) :
  isNull img = true → window_image center width img = img.
Proof.
  intros Hnull. destruct img as [w h bits]. unfold isNull in Hnull.
  simpl in Hnull. unfold window_image. simpl. f_equal.
  change (foldl (window_y center width w) bits (seq 0 (Z.to_nat h)))
    with (foldl (turn (window_line center width w)) bits (seq 0 (Z.to_nat h))).
  rewrite foldl_turn.
  apply orb_true_iff in Hnull as [Hw|Hh].
  - apply Z.leb_le in Hw.
    rewrite (list_fmap_ext _ id (take (Z.to_nat h) bits)).
    + by rewrite list_fmap_id, take_drop.
    + intros i line _. unfold window_line.
      by replace (Z.to_nat w) with 0%nat by lia.
  - apply Z.leb_le in Hh. by replace (Z.to_nat h) with 0%nat by lia.
Qed.

Section Reachable.
Context {V : Type} `{!QGraphicsView V}.
Implicit Types w : DicomViewerWindow V.
Implicit Types iw : DicomImageWidget V.

(** A property of the start state that every event keeps holds after
    every run. *)
Lemma run_invariant (P : DicomViewerWindow V → Prop) (env : Env) w (evs : list Event) :
  P w → (∀ w' ev, P w' → P (handle env w' ev)) → P (run env w evs).
Proof.
  intros Hw Hstep. unfold run. revert w Hw.
  induction evs as [|ev evs IH]; intros w Hw; simpl; [done|].
  apply IH, Hstep, Hw.
Qed.

Lemma adjustWindowLevel_params iw (center width : Z) :
  windowCenter (adjustWindowLevel center width iw) = center ∧
  windowWidth (adjustWindowLevel center width iw) = width.
Proof.
  unfold adjustWindowLevel, applyWindowLevel. simpl.
  destruct (pixmapItem iw); [|done].
  by destruct (isNull (currentPixmap iw)).
Qed.

Lemma adjustWindowLevel_display iw (center width : Z) :
  display_ok iw → display_ok (adjustWindowLevel center width iw).
Proof.
  intros Hok. unfold display_ok, adjustWindowLevel, applyWindowLevel. simpl.
  destruct (pixmapItem iw) as [p|] eqn:Hp; [|by left].
  destruct (isNull (currentPixmap iw)) eqn:Hnull; simpl.
  - right. left. unfold display_ok in Hok. rewrite Hp in Hok.
    destruct Hok as [Hn|[Hraw|Hwin]]; [done|done|].
    by rewrite window_image_null in Hwin.
  - by right; right.
Qed.

Lemma view_op_display iw (op : ViewOp) :
  display_ok iw → display_ok (view_op iw op).
Proof.
  unfold display_ok.
  destruct (view_op_frame iw op) as (-> & -> & -> & ->). done.
Qed.

(** What a load does to the widget: nothing, or [setDicomImage]. *)
Lemma loadDicomFile_widget (env : Env) (path : string) w :
  imageWidget (loadDicomFile env path w) = imageWidget w ∨
  ∃ pixmap, imageWidget (loadDicomFile env path w)
            = setDicomImage pixmap (imageWidget w).
Proof.
  unfold loadDicomFile.
  destruct (DCMTK_AVAILABLE env).
  - destruct (dcmtk_read env path); simpl; eauto.
  - destruct (negb (isNull (pixmap_read env path))); simpl; eauto.
Qed.

(** What a load leaves of the window. *)
Lemma loadDicomFile_rest (env : Env) (path : string) w :
  seriesList (loadDicomFile env path w) = seriesList w ∧
  currentSeries (loadDicomFile env path w) = currentSeries w ∧
  seriesRow (loadDicomFile env path w) = seriesRow w ∧
  windowCenterSlider (loadDicomFile env path w) = windowCenterSlider w ∧
  windowWidthSlider (loadDicomFile env path w) = windowWidthSlider w ∧
  progressBarVisible (loadDicomFile env path w) = false.
Proof.
  unfold loadDicomFile.
  destruct (DCMTK_AVAILABLE env).
  - destruct (dcmtk_read env path); done.
  - destruct (negb (isNull (pixmap_read env path))); done.
Qed.

(** The selection slot loads a listed path or does nothing. *)
Lemma onSeriesSelectionChanged_cases (env : Env) w :
  onSeriesSelectionChanged env w = w ∨
  ∃ path, onSeriesSelectionChanged env w = loadDicomFile env path w.
Proof.
  unfold onSeriesSelectionChanged.
  destruct (_ && _); [|by left].
  destruct (currentSeries w !! _); eauto.
Qed.

(** What opening a folder comes to: the lists are replaced, and the first
    file, when there is one, is loaded. *)
Lemma loadDicomSeries_cases (env : Env) (folder : string) w :
  (dir_entries env folder = [] ∧
   loadDicomSeries env folder w
   = set_statusLabel "Found 0 DICOM files" (set_series [] (-1) [] w)) ∨
  (∃ p b rest, dir_entries env folder = (p, b) :: rest ∧
     loadDicomSeries env folder w
     = loadDicomFile env p
         (set_seriesRow 0
            (set_statusLabel
               ("Found " +:+ pretty (length (dir_entries env folder))
                +:+ " DICOM files")
               (set_series (snd <$> dir_entries env folder) (-1)
                  (fst <$> dir_entries env folder) w)))).
Proof.
  unfold loadDicomSeries.
  destruct (dir_entries env folder) as [|[p b] rest]; [by left|].
  right. exists p, b, rest. split; [done|].
  cbn [currentSeries set_statusLabel set_series fmap list_fmap fst length].
  rewrite length_fmap. reflexivity.
Qed.

Lemma in_sync_ext w w' :
  imageWidget w' = imageWidget w →
  windowCenterSlider w' = windowCenterSlider w →
  windowWidthSlider w' = windowWidthSlider w →
  in_sync w → in_sync w'.
Proof. unfold in_sync. by intros -> -> ->. Qed.

Lemma loadDicomFile_in_sync (env : Env) (path : string) w :
  in_sync w → in_sync (loadDicomFile env path w).
Proof.
  intros (Hc & Hw & Hrc & Hrw). unfold in_sync.
  destruct (loadDicomFile_frame env path w) as (-> & -> & -> & -> & _). done.
Qed.

(** Every event keeps the widget's parameters equal to the sliders. *)
Lemma handle_in_sync (env : Env) w (ev : Event) :
  in_sync w → in_sync (handle env w ev).
Proof.
  intros Hin.
  assert (Hsel : ∀ w', in_sync w' → in_sync (onSeriesSelectionChanged env w')).
  { intros w' Hin'.
    destruct (onSeriesSelectionChanged_cases env w') as [->|[path ->]];
      [done|by apply loadDicomFile_in_sync]. }
  destruct ev as [fn|dir|row|v|v| |id r|op]; cbn [handle].
  - unfold openDicomFile. destruct (negb _); [|done].
    by apply loadDicomFile_in_sync.
  - unfold openDicomFolder. destruct (negb _); [|done].
    destruct (loadDicomSeries_cases env dir w)
      as [[_ ->]|(p & b & rest & _ & ->)].
    + by apply (in_sync_ext w).
    + apply loadDicomFile_in_sync. by apply (in_sync_ext w).
  - apply Hsel. by apply (in_sync_ext w).
  - destruct Hin as (Hc & Hw & Hrc & Hrw).
    unfold in_sync, onWindowCenterChanged, center_slider_value.
    cbn [imageWidget set_imageWidget set_center windowCenterSlider windowWidthSlider].
    destruct (adjustWindowLevel_params (imageWidget w)
                (qBound (-1000) v 3000) (windowWidthSlider w)) as [-> ->].
    pose proof (qBound_range (-1000) v 3000 ltac:(lia)). done.
  - destruct Hin as (Hc & Hw & Hrc & Hrw).
    unfold in_sync, onWindowWidthChanged, width_slider_value.
    cbn [imageWidget set_imageWidget set_width windowCenterSlider windowWidthSlider].
    destruct (adjustWindowLevel_params (imageWidget w)
                (windowCenterSlider w) (qBound 1 v 4000)) as [-> ->].
    pose proof (qBound_range 1 v 4000 ltac:(lia)). done.
  - unfold refreshWorklist. destruct (String.eqb _ _); [done|].
    by apply (in_sync_ext w).
  - unfold onReplyFinished. case_bool_decide; [|done].
    destruct r as [msg|[|items|items]]; by apply (in_sync_ext w).
  - destruct Hin as (Hc & Hw & Hrc & Hrw). unfold in_sync.
    cbn [imageWidget set_imageWidget windowCenterSlider windowWidthSlider].
    destruct (view_op_frame (imageWidget w) op) as (-> & -> & _). done.
Qed.

Lemma loadDicomFile_display (env : Env) (path : string) w :
  display_ok (imageWidget w) → display_ok (imageWidget (loadDicomFile env path w)).
Proof.
  intros Hok.
  destruct (loadDicomFile_widget env path w) as [->|[pixmap ->]]; [done|].
  right. by left.
Qed.

(** Every event keeps the display the source or its transform. *)
Lemma handle_display (env : Env) w (ev : Event) :
  display_ok (imageWidget w) → display_ok (imageWidget (handle env w ev)).
Proof.
  intros Hok.
  assert (Hsel : ∀ w', display_ok (imageWidget w') →
                       display_ok (imageWidget (onSeriesSelectionChanged env w'))).
  { intros w' Hok'.
    destruct (onSeriesSelectionChanged_cases env w') as [->|[path ->]];
      [done|by apply loadDicomFile_display]. }
  destruct ev as [fn|dir|row|v|v| |id r|op]; cbn [handle].
  - unfold openDicomFile. destruct (negb _); [|done].
    by apply loadDicomFile_display.
  - unfold openDicomFolder. destruct (negb _); [|done].
    destruct (loadDicomSeries_cases env dir w)
      as [[_ ->]|(p & b & rest & _ & ->)]; [done|].
    by apply loadDicomFile_display.
  - by apply Hsel.
  - unfold onWindowCenterChanged. cbn [imageWidget set_imageWidget set_center].
    by apply adjustWindowLevel_display.
  - unfold onWindowWidthChanged. cbn [imageWidget set_imageWidget set_width].
    by apply adjustWindowLevel_display.
  - unfold refreshWorklist. by destruct (String.eqb _ _).
  - by rewrite onReplyFinished_widget.
  - cbn [imageWidget set_imageWidget]. by apply view_op_display.
Qed.

Lemma loadDicomFile_lists (env : Env) (path : string) w :
  length (seriesList w) = length (currentSeries w) ∧ progressBarVisible w = false →
  length (seriesList (loadDicomFile env path w))
    = length (currentSeries (loadDicomFile env path w)) ∧
  progressBarVisible (loadDicomFile env path w) = false.
Proof.
  intros [Hlen _].
  destruct (loadDicomFile_rest env path w) as (-> & -> & _ & _ & _ & ->). done.
Qed.

(** Every event keeps the two lists of the same length and the progress
    bar hidden. *)
Lemma handle_lists (env : Env) w (ev : Event) :
  length (seriesList w) = length (currentSeries w) ∧ progressBarVisible w = false →
  length (seriesList (handle env w ev)) = length (currentSeries (handle env w ev)) ∧
  progressBarVisible (handle env w ev) = false.
Proof.
  intros Hin.
  assert (Hsel : ∀ w',
            length (seriesList w') = length (currentSeries w') ∧
            progressBarVisible w' = false →
            length (seriesList (onSeriesSelectionChanged env w'))
              = length (currentSeries (onSeriesSelectionChanged env w')) ∧
            progressBarVisible (onSeriesSelectionChanged env w') = false).
  { intros w' Hin'.
    destruct (onSeriesSelectionChanged_cases env w') as [->|[path ->]];
      [done|by apply loadDicomFile_lists]. }
  destruct ev as [fn|dir|row|v|v| |id r|op]; cbn [handle].
  - unfold openDicomFile. destruct (negb _); [|done].
    by apply loadDicomFile_lists.
  - unfold openDicomFolder. destruct (negb _); [|done].
    destruct Hin as [_ Hbar].
    destruct (loadDicomSeries_cases env dir w)
      as [[_ ->]|(p & b & rest & _ & ->)]; [done|].
    apply loadDicomFile_lists. split; [|done].
    cbn [seriesList currentSeries set_seriesRow set_statusLabel set_series].
    by rewrite !length_fmap.
  - by apply Hsel.
  - done.
  - done.
  - unfold refreshWorklist. by destruct (String.eqb _ _).
  - destruct Hin as [Hlen Hbar].
    unfold onReplyFinished. case_bool_decide; [|done].
    destruct r as [msg|[|items|items]]; try done;
      cbn [seriesList currentSeries progressBarVisible set_replies
           processWorklistResponse set_statusLabel set_series pendingReplies nextReply];
      by rewrite !length_fmap.
  - done.
Qed.

(** X8: after the constructor and any events, the widget's center and
    width are the slider values, the center within [-1000, 3000] and the
    width within [1, 4000]; so the width is never clamped by [qMax], and
    for every 8-bit sample the conversion to [int] on line 79 is defined. *)
Theorem X8_parameters_follow_sliders (env : Env) (url token : string)
    (evs : list Event) (gray : Z) :
  0 <= gray <= 255 →
  in_sync (run env (newWindow (V := V) url token) evs) ∧
  qMax 1 (windowWidth (imageWidget (run env (newWindow (V := V) url token) evs)))
    = windowWidth (imageWidget (run env (newWindow (V := V) url token) evs)) ∧
  int_defined
    (window_value
       (windowCenter (imageWidget (run env (newWindow (V := V) url token) evs)))
       (windowWidth (imageWidget (run env (newWindow (V := V) url token) evs)))
       gray) = true.
Proof.
  intros Hg.
  assert (Hin : in_sync (run env (newWindow (V := V) url token) evs)).
  { apply run_invariant; [|intros; by apply handle_in_sync].
    unfold newWindow, refreshWorklist, in_sync.
    destruct (String.eqb _ _); simpl; lia. }
  split; [done|]. destruct Hin as (Hc & Hw & Hrc & Hrw).
  rewrite Hc, Hw. split; [rewrite qMax_max; lia|].
  apply window_value_defined.
  - change (2 ^ 18) with 262144. lia.
  - apply is_int_spec. lia.
Qed.

(** X9: after the constructor and any events, what the scene shows is
    nothing, the source as it was loaded, or the transform of the source
    under the widget's current parameters, never a transform of a
    transform; and it has the extent of the source. *)
Theorem X9_display_from_source_always (env : Env) (url token : string)
    (evs : list Event) (shown : QPixmap) :
  pixmapItem (imageWidget (run env (newWindow (V := V) url token) evs)) = Some shown →
  display_ok (imageWidget (run env (newWindow (V := V) url token) evs)) ∧
  img_width shown
    = img_width (currentPixmap (imageWidget (run env (newWindow (V := V) url token) evs))) ∧
  img_height shown
    = img_height (currentPixmap (imageWidget (run env (newWindow (V := V) url token) evs))).
Proof.
  intros Hshown.
  assert (Hok : display_ok (imageWidget (run env (newWindow (V := V) url token) evs))).
  { apply (run_invariant (λ w, display_ok (imageWidget w)));
      [|intros; by apply handle_display].
    unfold newWindow, refreshWorklist.
    destruct (String.eqb _ _); by left. }
  split; [done|].
  destruct Hok as [Hn|[Hraw|Hwin]].
  - congruence.
  - rewrite Hraw in Hshown. by injection Hshown as <-.
  - rewrite Hwin in Hshown. by injection Hshown as <-.
Qed.

(** X10: after the constructor and any events, the list widget and
    [currentSeries] have the same length and the progress bar is hidden.
    Picking a row inside the list loads the path kept for that row;
    picking a row outside [currentSeries] only records the row. *)
Theorem X10_series_rows (env : Env) (url token : string) (evs : list Event) (row : Z) :
  length (seriesList (run env (newWindow (V := V) url token) evs))
    = length (currentSeries (run env (newWindow (V := V) url token) evs)) ∧
  progressBarVisible (run env (newWindow (V := V) url token) evs) = false ∧
  (0 <= row < Z.of_nat (length (seriesList (run env (newWindow (V := V) url token) evs))) →
   ∃ path,
     currentSeries (run env (newWindow (V := V) url token) evs) !! Z.to_nat row
       = Some path ∧
     handle env (run env (newWindow (V := V) url token) evs) (EvSeriesRow row)
       = loadDicomFile env path
           (set_seriesRow row (run env (newWindow (V := V) url token) evs))) ∧
  (∀ w, row < 0 ∨ Z.of_nat (length (currentSeries w)) <= row →
        handle env w (EvSeriesRow row) = set_seriesRow row w).
Proof.
  assert (Hinv : length (seriesList (run env (newWindow (V := V) url token) evs))
                 = length (currentSeries (run env (newWindow (V := V) url token) evs)) ∧
                 progressBarVisible (run env (newWindow (V := V) url token) evs) = false).
  { apply (run_invariant
             (λ w, length (seriesList w) = length (currentSeries w) ∧
                   progressBarVisible w = false));
      [|intros; by apply handle_lists].
    unfold newWindow, refreshWorklist. by destruct (String.eqb _ _). }
  destruct Hinv as [Hlen Hbar].
  set (w0 := run env (newWindow (V := V) url token) evs) in *.
  split; [done|]. split; [done|]. split.
  - intros Hrow. rewrite Hlen in Hrow.
    destruct (lookup_lt_is_Some_2 (currentSeries w0) (Z.to_nat row)) as [path Hpath];
      [lia|].
    exists path. split; [done|].
    cbn [handle]. unfold onSeriesSelectionChanged.
    cbn [seriesRow currentSeries set_seriesRow set_series].
    replace ((0 <=? row) && (row <? Z.of_nat (length (currentSeries w0))))
      with true by (symmetry; apply andb_true_iff; lia).
    by rewrite Hpath.
  - intros w Hout. cbn [handle]. unfold onSeriesSelectionChanged.
    cbn [seriesRow currentSeries set_seriesRow set_series].
    replace ((0 <=? row) && (row <? Z.of_nat (length (currentSeries w))))
      with false; [done|].
    symmetry. apply andb_false_iff. lia.
Qed.

End Reachable.

(** ** Worklist replies, folders and settings *)

Section WorklistAndSettings.
Context {V : Type} `{!QGraphicsView V}.
Implicit Types w : DicomViewerWindow V.

(** The status text and the widget after a load depend on the file and on
    the widget before, not on the rest of the window. *)
Lemma loadDicomFile_outcome (env : Env) (path : string) w w' :
  imageWidget w = imageWidget w' →
  statusLabel (loadDicomFile env path w) = statusLabel (loadDicomFile env path w') ∧
  imageWidget (loadDicomFile env path w) = imageWidget (loadDicomFile env path w').
Proof.
  intros Hiw. unfold loadDicomFile.
  destruct (DCMTK_AVAILABLE env).
  - destruct (dcmtk_read env path); simpl; by rewrite ?Hiw.
  - destruct (negb (isNull (pixmap_read env path))); simpl; by rewrite ?Hiw.
Qed.

(** X11: a worklist reply that is a network error, or whose body does not
    parse, leaves the list widget, the paths and the image widget as they
    were; for an awaited reply the status label shows the error text. *)
Theorem X11_bad_reply_keeps_lists (env : Env) (id : nat) (r : NetworkReply) w :
  (∃ msg, r = ReplyError msg) ∨ r = ReplyData JsonParseError →
  seriesList (handle env w (EvReplyFinished id r)) = seriesList w ∧
  currentSeries (handle env w (EvReplyFinished id r)) = currentSeries w ∧
  imageWidget (handle env w (EvReplyFinished id r)) = imageWidget w ∧
  (id ∈ pendingReplies w →
   statusLabel (handle env w (EvReplyFinished id r))
   = match r with
     | ReplyError msg => "Error fetching worklist: " +:+ msg
     | ReplyData _ => "Invalid worklist JSON"
     end).
Proof.
  intros Hbad. cbn [handle]. unfold onReplyFinished.
  destruct (decide (id ∈ pendingReplies w)) as [Hid|Hid].
  - rewrite bool_decide_eq_true_2 by done.
    destruct Hbad as [[msg ->]| ->]; done.
  - rewrite bool_decide_eq_false_2 by done. done.
Qed.

(** X12: opening a folder replaces both lists by the folder's DICOM files.
    With no such file the status label reads [Found 0 DICOM files] and
    nothing is loaded; otherwise row 0 becomes current and the first file
    is loaded at once, so the widget and the status label are those of
    that load, not the count. *)
Theorem X12_open_folder (env : Env) (dir : string) w :
  dir ≠ "" →
  currentSeries (handle env w (EvOpenDicomFolder dir)) = fst <$> dir_entries env dir ∧
  seriesList (handle env w (EvOpenDicomFolder dir)) = snd <$> dir_entries env dir ∧
  (dir_entries env dir = [] →
   statusLabel (handle env w (EvOpenDicomFolder dir)) = "Found 0 DICOM files" ∧
   imageWidget (handle env w (EvOpenDicomFolder dir)) = imageWidget w ∧
   seriesRow (handle env w (EvOpenDicomFolder dir)) = -1) ∧
  (∀ p b rest, dir_entries env dir = (p, b) :: rest →
   seriesRow (handle env w (EvOpenDicomFolder dir)) = 0 ∧
   statusLabel (handle env w (EvOpenDicomFolder dir))
     = statusLabel (loadDicomFile env p w) ∧
   imageWidget (handle env w (EvOpenDicomFolder dir))
     = imageWidget (loadDicomFile env p w)).
Proof.
  intros Hdir. cbn [handle]. unfold openDicomFolder.
  apply String.eqb_neq in Hdir. rewrite Hdir. cbn [negb].
  destruct (loadDicomSeries_cases env dir w)
    as [[He ->]|(p & b & rest & He & ->)].
  - rewrite He. repeat split; done.
  - set (w1 := set_seriesRow 0 _).
    destruct (loadDicomFile_rest env p w1) as (-> & -> & -> & _).
    destruct (loadDicomFile_outcome env p w1 w eq_refl) as [Hst Hiw].
    split; [done|]. split; [done|]. split; [by rewrite He|].
    intros p' b' rest' He'. rewrite He in He'. injection He' as <- <- <-.
    done.
Qed.

Lemma key_baseUrl_ne_authToken : key_baseUrl ≠ key_authToken.
Proof. done. Qed.

Lemma refreshWorklist_connection w :
  djangoBaseUrl (refreshWorklist w) = djangoBaseUrl w ∧
  authToken (refreshWorklist w) = authToken w.
Proof. unfold refreshWorklist. by destruct (String.eqb _ _). Qed.

(** X13: a connection accepted in the dialog is in force at once and
    after a restart: the next window built on the saved store has the same
    base URL and token, whatever the environment variable and the store
    held before; the other keys of the store are left alone. *)
Theorem X13_connection_persists (envvar : option string)
    (store : gmap string string) (url token : string) w :
  djangoBaseUrl (configureDjangoConnection (Accepted url token) w store).1 = url ∧
  authToken (configureDjangoConnection (Accepted url token) w store).1 = token ∧
  djangoBaseUrl
    (startWindow (V := V) envvar
       (configureDjangoConnection (Accepted url token) w store).2) = url ∧
  authToken
    (startWindow (V := V) envvar
       (configureDjangoConnection (Accepted url token) w store).2) = token ∧
  (∀ key, key ≠ key_baseUrl ∧ key ≠ key_authToken →
     (configureDjangoConnection (Accepted url token) w store).2 !! key = store !! key) ∧
  configureDjangoConnection Rejected w store = (w, store).
Proof.
  cbn [configureDjangoConnection fst snd].
  split; [done|]. split; [done|].
  unfold startWindow.
  destruct (refreshWorklist_connection
              (loadSettings envvar
                 (saveSettings (set_connection url token w) store)
                 (mkWindow newWidget [] (-1) [] 128 256 128 256 false "Ready"
                    (default_base_url envvar) "" ∅ 0))) as [-> ->].
  unfold loadSettings, saveSettings.
  cbn [djangoBaseUrl authToken set_connection].
  rewrite lookup_insert_eq.
  rewrite lookup_insert_ne by (symmetry; apply key_baseUrl_ne_authToken).
  rewrite lookup_insert_eq.
  split; [done|]. split; [done|]. split; [|done].
  intros key [Hk1 Hk2]. by rewrite !lookup_insert_ne.
Qed.

Lemma startWindow_fields (envvar : option string) (store : gmap string string) :
  djangoBaseUrl (startWindow (V := V) envvar store)
    = default (default_base_url envvar) (store !! key_baseUrl) ∧
  authToken (startWindow (V := V) envvar store)
    = default "" (store !! key_authToken) ∧
  pendingReplies (startWindow (V := V) envvar store)
    = if String.eqb (default (default_base_url envvar) (store !! key_baseUrl)) ""
      then ∅ else {[ 0%nat ]} ∪ ∅.
Proof.
  unfold startWindow, refreshWorklist, loadSettings.
  cbn [djangoBaseUrl set_connection].
  by destruct (String.eqb _ _).
Qed.

(** X14: on a store without the two keys the window starts with the
    environment variable as base URL, or [http://localhost:8000/viewer]
    when the variable is not set, and with an empty token. The constructor
    requests the worklist once, unless the variable is set and empty. *)
Theorem X14_missing_settings (envvar : option string) (store : gmap string string) :
  store !! key_baseUrl = None →
  store !! key_authToken = None →
  djangoBaseUrl (startWindow (V := V) envvar store)
    = default "http://localhost:8000/viewer" envvar ∧
  authToken (startWindow (V := V) envvar store) = "" ∧
  pendingReplies (startWindow (V := V) envvar store)
    = if decide (envvar = Some "") then ∅ else {[ 0%nat ]}.
Proof.
  intros Hu Ht.
  destruct (startWindow_fields envvar store) as (-> & -> & ->).
  rewrite Hu, Ht. unfold default_base_url. cbn [default from_option id].
  split; [done|]. split; [done|].
  destruct envvar as [s|]; cbn [default from_option id].
  - destruct (String.eqb_spec s "") as [->|Hne].
    + by rewrite decide_True.
    + rewrite decide_False by congruence. by rewrite (right_id_L ∅ (∪)).
  - rewrite decide_False by done. by rewrite (right_id_L ∅ (∪)).
Qed.

(** X15: with an empty base URL the worklist is never requested: a
    connection accepted with an empty URL makes every later refresh, from
    the timer or the button, leave the window as it is. *)
Theorem X15_empty_url_stops_refresh (env : Env) (store : gmap string string)
    (token : string) (n : nat) w :
  run env (configureDjangoConnection (Accepted "" token) w store).1
      (replicate n EvRefreshWorklist)
    = (configureDjangoConnection (Accepted "" token) w store).1 ∧
  (∀ w', djangoBaseUrl w' = "" → handle env w' EvRefreshWorklist = w') ∧
  (∀ w', djangoBaseUrl w' ≠ "" →
     pendingReplies (handle env w' EvRefreshWorklist)
       = {[ nextReply w' ]} ∪ pendingReplies w').
Proof.
  assert (Hoff : ∀ w', djangoBaseUrl w' = "" → handle env w' EvRefreshWorklist = w').
  { intros w' Hu. cbn [handle]. unfold refreshWorklist. by rewrite Hu. }
  split; [|split; [done|]].
  - cbn [configureDjangoConnection fst].
    set (w1 := set_statusLabel _ _). unfold run.
    induction n as [|n IH]; simpl; [done|].
    change (handle env w1 EvRefreshWorklist) with (refreshWorklist w1).
    by replace (refreshWorklist w1) with w1.
  - intros w' Hu. cbn [handle]. unfold refreshWorklist.
    apply String.eqb_neq in Hu. by rewrite Hu.
Qed.

End WorklistAndSettings.

(** *** Concrete runs *)

Lemma X8_parameters_follow_sliders_witness :
  0 <= 200 <= 255 ∧
  in_sync (run demo_env (newWindow (V := list ViewCall) demo_url "")
             [EvCenterSlider 5000; EvOpenDicomFile "a.png"; EvWidthSlider 0]).
Proof.
  split; [lia|].
  exact (proj1 (X8_parameters_follow_sliders demo_env demo_url ""
                  [EvCenterSlider 5000; EvOpenDicomFile "a.png"; EvWidthSlider 0]
                  200 ltac:(lia))).
Defined.

Lemma X9_display_from_source_always_witness :
  pixmapItem
    (imageWidget
       (run demo_env (newWindow (V := list ViewCall) demo_url "")
          [EvOpenDicomFile "a.png"; EvWidthSlider 1; EvView OpZoomIn]))
    = Some (mkImage 1 1 [[0]]) ∧
  display_ok
    (imageWidget
       (run demo_env (newWindow (V := list ViewCall) demo_url "")
          [EvOpenDicomFile "a.png"; EvWidthSlider 1; EvView OpZoomIn])).
Proof.
  assert (Hshown :
    pixmapItem
      (imageWidget
         (run demo_env (newWindow (V := list ViewCall) demo_url "")
            [EvOpenDicomFile "a.png"; EvWidthSlider 1; EvView OpZoomIn]))
      = Some (mkImage 1 1 [[0]])) by (vm_compute; reflexivity).
  split; [exact Hshown|].
  exact (proj1 (X9_display_from_source_always demo_env demo_url ""
                  [EvOpenDicomFile "a.png"; EvWidthSlider 1; EvView OpZoomIn]
                  (mkImage 1 1 [[0]]) Hshown)).
Defined.

Lemma X10_series_rows_witness :
  0 <= 1 < Z.of_nat
             (length
                (seriesList
                   (run demo_env (newWindow (V := list ViewCall) demo_url "")
                      [EvReplyFinished 0 (ReplyData (JsonArray [entryA; entryB]))]))) ∧
  ∃ path,
    currentSeries
      (run demo_env (newWindow (V := list ViewCall) demo_url "")
         [EvReplyFinished 0 (ReplyData (JsonArray [entryA; entryB]))])
      !! Z.to_nat 1 = Some path ∧
    handle demo_env
      (run demo_env (newWindow (V := list ViewCall) demo_url "")
         [EvReplyFinished 0 (ReplyData (JsonArray [entryA; entryB]))])
      (EvSeriesRow 1)
    = loadDicomFile demo_env path
        (set_seriesRow 1
           (run demo_env (newWindow (V := list ViewCall) demo_url "")
              [EvReplyFinished 0 (ReplyData (JsonArray [entryA; entryB]))])).
Proof.
  assert (Hrow :
    0 <= 1 < Z.of_nat
               (length
                  (seriesList
                     (run demo_env (newWindow (V := list ViewCall) demo_url "")
                        [EvReplyFinished 0 (ReplyData (JsonArray [entryA; entryB]))]))))
    by (vm_compute; split; [discriminate|reflexivity]).
  split; [exact Hrow|].
  exact (proj1 (proj2 (proj2
           (X10_series_rows demo_env demo_url ""
              [EvReplyFinished 0 (ReplyData (JsonArray [entryA; entryB]))] 1)))
           Hrow).
Defined.

Lemma X11_bad_reply_keeps_lists_witness :
  ((∃ msg, ReplyError "timed out" = ReplyError msg)
   ∨ ReplyError "timed out" = ReplyData JsonParseError) ∧
  currentSeries
    (handle demo_env
       (run demo_env (newWindow (V := list ViewCall) demo_url "")
          [EvRefreshWorklist; EvReplyFinished 0 (ReplyData (JsonArray [entryA]))])
       (EvReplyFinished 1 (ReplyError "timed out")))
    = currentSeries
        (run demo_env (newWindow (V := list ViewCall) demo_url "")
           [EvRefreshWorklist; EvReplyFinished 0 (ReplyData (JsonArray [entryA]))]).
Proof.
  assert (Hbad : (∃ msg, ReplyError "timed out" = ReplyError msg)
                 ∨ ReplyError "timed out" = ReplyData JsonParseError)
    by (left; exists "timed out"; reflexivity).
  split; [exact Hbad|].
  exact (proj1 (proj2
           (X11_bad_reply_keeps_lists demo_env 1 (ReplyError "timed out")
              (run demo_env (newWindow (V := list ViewCall) demo_url "")
                 [EvRefreshWorklist; EvReplyFinished 0 (ReplyData (JsonArray [entryA]))])
              Hbad))).
Defined.

Lemma X12_open_folder_witness :
  "scans" ≠ "" ∧
  currentSeries
    (handle demo_folder_env (newWindow (V := list ViewCall) demo_url "")
       (EvOpenDicomFolder "scans"))
    = ["a.png"; "b.png"] ∧
  statusLabel
    (handle demo_folder_env (newWindow (V := list ViewCall) demo_url "")
       (EvOpenDicomFolder "scans"))
    = "Image loaded (not DICOM processed)".
Proof.
  assert (Hdir : "scans" ≠ "") by discriminate.
  split; [exact Hdir|].
  split.
  - exact (proj1 (X12_open_folder demo_folder_env "scans"
                    (newWindow (V := list ViewCall) demo_url "") Hdir)).
  - exact (proj1 (proj2 (proj2 (proj2 (proj2
             (X12_open_folder demo_folder_env "scans"
                (newWindow (V := list ViewCall) demo_url "") Hdir)))
             "a.png" "a" [("b.png", "b")] eq_refl))).
Defined.

Lemma X13_connection_persists_witness :
  ("window/geometry" ≠ key_baseUrl ∧ "window/geometry" ≠ key_authToken) ∧
  snd (configureDjangoConnection (Accepted "http://pacs:8000/viewer" "t0k3n")
         (newWindow (V := list ViewCall) demo_url "")
         {[ "window/geometry" := "1200x800" ]}) !! "window/geometry"
    = Some "1200x800".
Proof.
  assert (Hk : "window/geometry" ≠ key_baseUrl ∧ "window/geometry" ≠ key_authToken)
    by (split; discriminate).
  split; [exact Hk|].
  rewrite (proj1 (proj2 (proj2 (proj2 (proj2
             (X13_connection_persists (V := list ViewCall) None
                {[ "window/geometry" := "1200x800" ]}
                "http://pacs:8000/viewer" "t0k3n"
                (newWindow (V := list ViewCall) demo_url ""))))))
             "window/geometry" Hk).
  apply lookup_singleton_eq.
Defined.

Lemma X14_missing_settings_witness :
  (∅ : gmap string string) !! key_baseUrl = None ∧
  (∅ : gmap string string) !! key_authToken = None ∧
  djangoBaseUrl (startWindow (V := list ViewCall) None ∅)
    = "http://localhost:8000/viewer".
Proof.
  split; [apply lookup_empty|]. split; [apply lookup_empty|].
  exact (proj1 (X14_missing_settings (V := list ViewCall) None ∅
                  (lookup_empty _) (lookup_empty _))).
Defined.

Lemma X15_empty_url_stops_refresh_witness :
  djangoBaseUrl (newWindow (V := list ViewCall) "" "") = "" ∧
  handle demo_env (newWindow (V := list ViewCall) "" "") EvRefreshWorklist
    = newWindow (V := list ViewCall) "" "".
Proof.
  split; [reflexivity|].
  exact (proj1 (proj2
           (X15_empty_url_stops_refresh (V := list ViewCall) demo_env ∅ "" 0
              (newWindow (V := list ViewCall) "" "")))
           (newWindow (V := list ViewCall) "" "") eq_refl).
Defined.
